(** * Phone Number Lookup API: a shallow embedding of [main.py]

    The service is a thin orchestration layer over two external Python
    packages: [phonenumbers] (the numbering-plan engine) and [pycountry]
    (the ISO 3166 table).  Both are black boxes for this development and
    appear as interfaces (type classes); everything that [main.py] itself
    does is written out as Rocq functions over these interfaces:

    - [_NUMBER_TYPE_MAPPING], [get_number_type_name]  (number classifier)
    - [validate_api_token]                            (token authenticator)
    - [get_country_info] under [functools.lru_cache]  (metadata resolver)
    - [lookup_phone_number], [validate_phone_number],
      [get_supported_countries]                       (the three routes)

    Python strings are Rocq strings (sequences of bytes, UTF-8), optional
    values are [option], dictionaries are [gmap]s, exceptions are explicit
    outcomes.  Calls to [logger] do not influence any returned value and are
    left out.  The only state shared between requests is the LRU cache of
    [get_country_info]; it is threaded explicitly, together with the trace
    of queries that reach the country table. *)

From Stdlib Require Import Ascii Sorted Permutation.
From Stdlib Require OrderedTypeEx.
From stdpp Require Import base decidable option list gmap strings.

Local Open Scope Z_scope.

(** ** Python built-ins used by [main.py] *)

(** [s.startswith(p)] *)
Definition startswith (s p : string) : bool := String.prefix p s.

(** Truth value of an [Optional[str]]: [None] and [''] are falsy. *)
Definition truthy (x : option string) : bool :=
  match x with
  | Some (String _ _) => true
  | _ => false
  end.

(** [str.upper] on ASCII letters; every other byte is kept.  Region codes
    are two ASCII letters, which is the fragment the service works on. *)
Definition ascii_upper (c : ascii) : ascii :=
  let n := nat_of_ascii c in
  if Nat.leb 97 n && Nat.leb n 122 then ascii_of_nat (n - 32) else c.

Fixpoint upper (s : string) : string :=
  match s with
  | EmptyString => EmptyString
  | String c r => String (ascii_upper c) (upper r)
  end.

(** ASCII decimal digits, and the shape of an E.164 string: a plus sign
    followed by digits only. *)
Definition is_digit (c : ascii) : bool :=
  let n := nat_of_ascii c in Nat.leb 48 n && Nat.leb n 57.

Fixpoint all_digits (s : string) : bool :=
  match s with
  | EmptyString => true
  | String c r => is_digit c && all_digits r
  end.

Definition e164_shaped (s : string) : bool :=
  match s with
  | String "+"%char r => all_digits r
  | _ => false
  end.

(** [s.split(sep)] for a one-character separator: the text is cut at every
    occurrence of [sep], empty pieces are kept, and the empty string gives
    one empty piece. *)
Fixpoint split (sep : ascii) (s : string) : list string :=
  match s with
  | EmptyString => [EmptyString]
  | String c r =>
      if Ascii.eqb c sep then EmptyString :: split sep r
      else match split sep r with
           | [] => [String c EmptyString]
           | piece :: pieces => String c piece :: pieces
           end
  end.

(** The separator does not occur in [s]. *)
Fixpoint no_sep (sep : ascii) (s : string) : Prop :=
  match s with
  | EmptyString => True
  | String c r => c ≠ sep ∧ no_sep sep r
  end.

(** [sep.join(pieces)] *)
Fixpoint join (sep : string) (pieces : list string) : string :=
  match pieces with
  | [] => EmptyString
  | piece :: rest =>
      match rest with
      | [] => piece
      | _ :: _ => piece +:+ sep +:+ join sep rest
      end
  end.

(** Rendering of an [Optional[str]] inside an f-string. *)
Definition fstr (x : option string) : string := default "None" x.

(** A dict display [{k1: v1, ..., kn: vn}]: items are stored left to right,
    a repeated key keeps the last value. *)
Definition dict_display `{Countable K} {V : Type} (items : list (K * V)) : gmap K V :=
  foldl (λ m kv, <[kv.1 := kv.2]> m) ∅ items.

(** [d.get(k, dflt)] *)
Definition dict_get `{Countable K} {V : Type} (d : gmap K V) (k : K) (dflt : V) : V :=
  default dflt (d !! k).

(** Truth value of an optional dict: [None] and [{}] are falsy. *)
Definition truthy_dict `{Countable K} {V : Type} (d : option (gmap K V)) : bool :=
  match d with
  | Some m => negb (bool_decide (m = ∅))
  | None => false
  end.

(** [sorted(l, key=key)] for string keys: a stable sort that compares keys
    with [<] only.  Keys compare byte by byte, which on UTF-8 text is the
    code-point order Python uses. *)
Section sorted.
Context {A : Type} (key : A → string).

Fixpoint insort (x : A) (l : list A) : list A :=
  match l with
  | [] => [x]
  | y :: l' => if String.ltb (key y) (key x) then y :: insort x l' else x :: y :: l'
  end.

Definition sorted (l : list A) : list A := foldr insort [] l.

(** Ascending order of the keys. *)
Definition key_le (x y : A) : Prop := String.leb (key x) (key y) = true.

End sorted.

(** ** [functools.lru_cache(maxsize)] for a positive [maxsize]

    The cache maps the call's argument to the value returned for it.
    [entries] is ordered from the most to the least recently used key.
    The wrapped function may act on a world [W] (here: the country table's
    query trace). *)
Section lru_cache.
Context {K V W : Type} `{EqDecision K}.
Variable maxsize : nat.
Variable user_function : K → W → V * W.

Record lru := { entries : list (K * V); hits : nat; misses : nat }.

Definition lru_empty : lru := {| entries := []; hits := 0; misses := 0 |}.

Fixpoint cache_get (k : K) (es : list (K * V)) : option V :=
  match es with
  | [] => None
  | (k', v) :: es' => if decide (k = k') then Some v else cache_get k es'
  end.

Definition cache_remove (k : K) (es : list (K * V)) : list (K * V) :=
  filter (λ e, e.1 ≠ k) es.

Definition lru_call (k : K) (c : lru) (w : W) : V * lru * W :=
  match cache_get k (entries c) with
  | Some v =>
      (v, {| entries := (k, v) :: cache_remove k (entries c);
             hits := S (hits c); misses := misses c |}, w)
  | None =>
      let '(v, w') := user_function k w in
      let kept := if decide (maxsize ≤ length (entries c))%nat
                  then removelast (entries c) else entries c in
      (v, {| entries := (k, v) :: kept;
             hits := hits c; misses := S (misses c) |}, w')
  end.

(** [k] holds [v] and at most [j] entries were used more recently. *)
Definition recently_used (k : K) (v : V) (j : nat) (es : list (K * V)) : Prop :=
  ∃ pre post, es = pre ++ (k, v) :: post ∧ (length pre ≤ j)%nat ∧ k ∉ pre.*1.

End lru_cache.

Arguments lru : clear implicits.

(** ** The [phonenumbers] package (external) *)
Module phonenumbers.

Variant PhoneNumberFormat := E164 | INTERNATIONAL | NATIONAL | RFC3966.

(** What a call of [phonenumbers.parse] can do. *)
Variant parse_outcome (PhoneNumber NumberParseException : Type) :=
  | Parsed (numobj : PhoneNumber)
  | RaisesNumberParseException (e : NumberParseException)
  | RaisesException (e : string).
Arguments Parsed {_ _} _.
Arguments RaisesNumberParseException {_ _} _.
Arguments RaisesException {_ _} _.

Module PhoneNumberType.
(** The integer constants of [phonenumbers.PhoneNumberType] that
    [main.py] names. *)
Class Constants := {
  MOBILE : Z;
  FIXED_LINE : Z;
  FIXED_LINE_OR_MOBILE : Z;
  TOLL_FREE : Z;
  PREMIUM_RATE : Z;
  SHARED_COST : Z;
  VOIP : Z;
  PERSONAL_NUMBER : Z;
  PAGER : Z;
  UAN : Z;
  UNKNOWN : Z
}.
End PhoneNumberType.

Class Package := {
  PhoneNumber : Type;
  NumberParseException : Type;
  (** [str(e)] for a [NumberParseException] *)
  str_error : NumberParseException → string;
  (** [str(numobj)] *)
  str_number : PhoneNumber → string;
  parse : string → option string → parse_outcome PhoneNumber NumberParseException;
  region_code_for_number : PhoneNumber → option string;
  number_type : PhoneNumber → Z;
  is_valid_number : PhoneNumber → bool;
  is_possible_number : PhoneNumber → bool;
  format_number : PhoneNumber → PhoneNumberFormat → string
}.

End phonenumbers.

(** ** The [pycountry] package (external) *)
Module pycountry.

(** A record of the table.  [name] and [alpha_2] are read unguarded by
    [main.py]; [alpha_3] and [numeric] are read through
    [getattr(country, ..., None)] in one place, so an absent attribute is
    part of the model. *)
Record Country := {
  name : string;
  alpha_2 : string;
  alpha_3 : option string;
  numeric : option string
}.

(** What a call of [pycountry.countries.get(alpha_2=...)] can do. *)
Variant get_outcome :=
  | Returns (country : option Country)
  | Raises.

Class Package := {
  (** iteration over [pycountry.countries] *)
  countries : list Country;
  (** [pycountry.countries.get(alpha_2=code)] *)
  countries_get : string → get_outcome
}.

End pycountry.

(** ** The process environment *)
Class Environ := { environ : gmap string string }.

Definition getenv {env : Environ} (key dflt : string) : string :=
  default dflt (environ !! key).

(** ** Response models *)
Module PhoneNumberInfo.
Record t := {
  phone_number : string;
  country_code : string;
  country_name : string;
  country_region : option string;
  number_type : string;
  is_valid : bool;
  is_possible : bool;
  formatted_e164 : string;
  formatted_national : string;
  timezone : option string
}.
End PhoneNumberInfo.

Module ValidationResult.
Record t := {
  phone : string;
  is_valid : bool;
  is_possible : bool;
  country_code : option string;
  error : option string
}.
End ValidationResult.

Module CountryInfo.
Record t := {
  name : string;
  alpha_2 : string;
  alpha_3 : string;
  numeric : string
}.
End CountryInfo.

Module CountriesResponse.
Record t := {
  total : nat;
  countries : list CountryInfo.t
}.
End CountriesResponse.

Module HealthResponse.
Record t := {
  status : string;
  service : string;
  version : string;
  api_token_configured : bool
}.
End HealthResponse.

(** What a route handler can do: return a body, raise an [HTTPException],
    or let another exception escape (the framework answers 500). *)
Variant response (A : Type) :=
  | Return (body : A)
  | HTTPException (status_code : Z) (detail : string)
  | Unhandled (exc : string).
Arguments Return {_} _.
Arguments HTTPException {_} _ _.
Arguments Unhandled {_} _.

Definition status {A : Type} (r : response A) : Z :=
  match r with
  | Return _ => 200
  | HTTPException code _ => code
  | Unhandled _ => 500
  end.

(** ** The application *)

(** The dict [get_country_info] returns. *)
Abbreviation country_dict := (gmap string (option string)).

(** The state that survives a request: the cache of [get_country_info] and
    the trace of the codes that were looked up in the country table. *)
Record app_state := {
  country_cache : lru (option string) (option country_dict);
  table_queries : list string
}.

Definition initial_state : app_state :=
  {| country_cache := lru_empty; table_queries := [] |}.

Section main.
Context {types : phonenumbers.PhoneNumberType.Constants} {lib : phonenumbers.Package}
        {tbl : pycountry.Package} {env : Environ}.

Definition API_TOKEN : string := getenv "API_TOKEN" "dev-token-change-in-production".

Definition _NUMBER_TYPE_MAPPING : gmap Z string :=
  dict_display [
    (phonenumbers.PhoneNumberType.MOBILE, "MOBILE");
    (phonenumbers.PhoneNumberType.FIXED_LINE, "FIXED_LINE");
    (phonenumbers.PhoneNumberType.FIXED_LINE_OR_MOBILE, "FIXED_LINE_OR_MOBILE");
    (phonenumbers.PhoneNumberType.TOLL_FREE, "TOLL_FREE");
    (phonenumbers.PhoneNumberType.PREMIUM_RATE, "PREMIUM_RATE");
    (phonenumbers.PhoneNumberType.SHARED_COST, "SHARED_COST");
    (phonenumbers.PhoneNumberType.VOIP, "VOIP");
    (phonenumbers.PhoneNumberType.PERSONAL_NUMBER, "PERSONAL_NUMBER");
    (phonenumbers.PhoneNumberType.PAGER, "PAGER");
    (phonenumbers.PhoneNumberType.UAN, "UAN");
    (phonenumbers.PhoneNumberType.UNKNOWN, "UNKNOWN")
  ].

(** The dict built for a country that was found; [getattr(country, ..., None)]
    yields [None] for an absent attribute. *)
Definition make_country_dict (country : pycountry.Country) : country_dict :=
  dict_display [
    ("name", Some (pycountry.name country));
    ("alpha_2", Some (pycountry.alpha_2 country));
    ("alpha_3", pycountry.alpha_3 country);
    ("numeric", pycountry.numeric country)
  ].

(** The body of [get_country_info], before the decorator.  Uppercasing
    [None] raises [AttributeError]; that and any exception of the table are
    caught by [except Exception] and become [None]. *)
Definition get_country_info_body (country_code : option string) (queries : list string)
  : option country_dict * list string :=
  match country_code with
  | None => (None, queries)
  | Some code =>
      let queries' := queries ++ [upper code] in
      match pycountry.countries_get (upper code) with
      | pycountry.Returns (Some country) => (Some (make_country_dict country), queries')
      | pycountry.Returns None => (None, queries')
      | pycountry.Raises => (None, queries')
      end
  end.

(** The value [get_country_info] has for a code, cached or not (the body's
    result does not depend on the trace), and the table queries one
    evaluation of the body makes. *)
Definition country_record (country_code : option string) : option country_dict :=
  (get_country_info_body country_code []).1.

Definition queries_of (country_code : option string) : list string :=
  match country_code with
  | None => []
  | Some code => [upper code]
  end.

(** [@lru_cache(maxsize=256) def get_country_info(country_code)] *)
Definition get_country_info (country_code : option string) (st : app_state)
  : option country_dict * app_state :=
  let '(r, c, q) := lru_call 256 get_country_info_body country_code
                      (country_cache st) (table_queries st) in
  (r, {| country_cache := c; table_queries := q |}).

(** The cache invariant between requests: at most 256 entries, one per
    argument, each holding the value of the body for its argument. *)
Record cache_ok (st : app_state) : Prop := {
  cache_bounded : (length (entries (country_cache st)) ≤ 256)%nat;
  cache_distinct : NoDup (entries (country_cache st)).*1;
  cache_sound : ∀ k v, (k, v) ∈ entries (country_cache st) → v = country_record k
}.

Definition get_number_type_name (number_type : Z) : string :=
  dict_get _NUMBER_TYPE_MAPPING number_type "UNKNOWN".

Definition validate_api_token (x_api_token : option string) : bool :=
  if negb (truthy x_api_token) then false
  else bool_decide (x_api_token = Some API_TOKEN).

(** The first statement both number routes run after the token check:
    [if not phone.startswith('+') and not country: phone = '+' + phone]. *)
Definition coerce_phone (phone : string) (country : option string) : string :=
  if negb (startswith phone "+") && negb (truthy country) then "+" +:+ phone else phone.

(** The framework checks the query parameters before a handler runs
    ([phone] is not empty, [country] has at most two characters); the
    handlers below are defined on all strings.

    [GET /lookup] *)
Definition lookup_phone_number (phone : string) (country : option string)
    (x_api_token : string) (st : app_state)
  : response PhoneNumberInfo.t * app_state :=
  if negb (validate_api_token (Some x_api_token)) then
    (HTTPException 401 "Invalid or missing API token", st)
  else
    let phone := coerce_phone phone country in
    match phonenumbers.parse phone country with
    | phonenumbers.RaisesNumberParseException _ =>
        (HTTPException 400 "Invalid phone number format", st)
    | phonenumbers.RaisesException _ =>
        (HTTPException 400 "Error parsing phone number", st)
    | phonenumbers.Parsed parsed_number =>
        let country_code := phonenumbers.region_code_for_number parsed_number in
        let '(country_info, st) := get_country_info country_code st in
        if negb (truthy_dict country_info) then
          (HTTPException 404 ("Country not found: " +:+ fstr country_code), st)
        else
          let number_type := phonenumbers.number_type parsed_number in
          let number_type_name := get_number_type_name number_type in
          let is_valid := phonenumbers.is_valid_number parsed_number in
          let is_possible := phonenumbers.is_possible_number parsed_number in
          let formatted_e164 :=
            phonenumbers.format_number parsed_number phonenumbers.E164 in
          let formatted_national :=
            phonenumbers.format_number parsed_number phonenumbers.NATIONAL in
          match country_info ≫= (.!! "name") with
          | None => (Unhandled "KeyError", st)
          | Some country_name =>
              (* the model's [str] fields reject [None] *)
              match country_code, country_name with
              | Some country_code, Some country_name =>
                  (Return {|
                     PhoneNumberInfo.phone_number := phonenumbers.str_number parsed_number;
                     PhoneNumberInfo.country_code := country_code;
                     PhoneNumberInfo.country_name := country_name;
                     PhoneNumberInfo.country_region := None;
                     PhoneNumberInfo.number_type := number_type_name;
                     PhoneNumberInfo.is_valid := is_valid;
                     PhoneNumberInfo.is_possible := is_possible;
                     PhoneNumberInfo.formatted_e164 := formatted_e164;
                     PhoneNumberInfo.formatted_national := formatted_national;
                     PhoneNumberInfo.timezone := None
                   |}, st)
              | _, _ => (Unhandled "ValidationError", st)
              end
          end
    end.

(** [GET /validate].  Only [NumberParseException] is caught here. *)
Definition validate_phone_number (phone : string) (country : option string)
    (x_api_token : string)
  : response ValidationResult.t :=
  if negb (validate_api_token (Some x_api_token)) then
    HTTPException 401 "Invalid or missing API token"
  else
    let phone := coerce_phone phone country in
    match phonenumbers.parse phone country with
    | phonenumbers.Parsed parsed_number =>
        let is_valid := phonenumbers.is_valid_number parsed_number in
        let is_possible := phonenumbers.is_possible_number parsed_number in
        let detected_country := phonenumbers.region_code_for_number parsed_number in
        Return {|
          ValidationResult.phone := phone;
          ValidationResult.is_valid := is_valid;
          ValidationResult.is_possible := is_possible;
          ValidationResult.country_code := detected_country;
          ValidationResult.error := None
        |}
    | phonenumbers.RaisesNumberParseException e =>
        Return {|
          ValidationResult.phone := phone;
          ValidationResult.is_valid := false;
          ValidationResult.is_possible := false;
          ValidationResult.country_code := None;
          ValidationResult.error := Some (phonenumbers.str_error e)
        |}
    | phonenumbers.RaisesException e => Unhandled e
    end.

(** One step of the loop of [get_supported_countries]: reading a missing
    attribute raises [AttributeError]. *)
Definition country_info_of (country : pycountry.Country) : option CountryInfo.t :=
  match pycountry.alpha_3 country, pycountry.numeric country with
  | Some a3, Some num =>
      Some {| CountryInfo.name := pycountry.name country;
              CountryInfo.alpha_2 := pycountry.alpha_2 country;
              CountryInfo.alpha_3 := a3;
              CountryInfo.numeric := num |}
  | _, _ => None
  end.

(** [GET /supported-countries] *)
Definition get_supported_countries (x_api_token : string)
  : response CountriesResponse.t :=
  if negb (validate_api_token (Some x_api_token)) then
    HTTPException 401 "Invalid or missing API token"
  else
    match mapM country_info_of pycountry.countries with
    | None => Unhandled "AttributeError"
    | Some countries =>
        let countries_sorted := sorted CountryInfo.name countries in
        Return {| CountriesResponse.total := length countries_sorted;
                  CountriesResponse.countries := countries_sorted |}
    end.

(** What holds of the state after [n] requests: the cache invariant, one
    counted miss for every table query, at most one cache access per
    request, and only uppercased codes in the trace. *)
Definition served (n : nat) (st : app_state) : Prop :=
  cache_ok st
  ∧ (length (table_queries st) ≤ misses (country_cache st))%nat
  ∧ (hits (country_cache st) + misses (country_cache st) ≤ n)%nat
  ∧ Forall (λ q, upper q = q) (table_queries st).

(** [CORS_ORIGINS = os.getenv("CORS_ORIGINS", "*").split(",")] *)
Definition CORS_ORIGINS : list string := split "," (getenv "CORS_ORIGINS" "*").

(** [GET /health]: no token is asked for. *)
Definition health : HealthResponse.t :=
  {| HealthResponse.status := "healthy";
     HealthResponse.service := "Phone Number Lookup API";
     HealthResponse.version := "1.0.0";
     HealthResponse.api_token_configured :=
       bool_decide (API_TOKEN ≠ "dev-token-change-in-production") |}.

(** A [/lookup] request, and the state a process is in after it has served
    a sequence of them one after the other. *)
Record lookup_request := {
  req_phone : string;
  req_country : option string;
  req_token : string
}.

Definition serve_lookup (st : app_state) (req : lookup_request) : app_state :=
  (lookup_phone_number (req_phone req) (req_country req) (req_token req) st).2.

Definition serve_lookups (reqs : list lookup_request) (st : app_state) : app_state :=
  foldl serve_lookup st reqs.

(** The state after a sequence of calls of [get_country_info]. *)
Definition resolve_all (codes : list (option string)) (st : app_state) : app_state :=
  foldl (λ st code, (get_country_info code st).2) st codes.

End main.

(** ** A small instance of the external packages

    The theorems below hold for every implementation of the interfaces.
    This instance is a miniature numbering plan and a three-line country
    table on which the service can be run. *)
Module Mini.

Fixpoint digits_of (s : string) : string :=
  match s with
  | EmptyString => EmptyString
  | String c r => if is_digit c then String c (digits_of r) else digits_of r
  end.

Variant error_type := INVALID_COUNTRY_CODE | NOT_A_NUMBER | TOO_SHORT_NSN.

Definition str_error (e : error_type) : string :=
  match e with
  | INVALID_COUNTRY_CODE => "(0) Missing or invalid default region."
  | NOT_A_NUMBER => "(1) The string supplied did not seem to be a phone number."
  | TOO_SHORT_NSN => "(3) The string supplied is too short to be a phone number."
  end.

(** A number is its digits in international order (calling code first). *)
Definition parse (number : string) (region : option string)
  : phonenumbers.parse_outcome string error_type :=
  match number with
  | String "+"%char r =>
      if negb (all_digits r) then phonenumbers.RaisesNumberParseException NOT_A_NUMBER
      else if Nat.ltb (String.length r) 3
           then phonenumbers.RaisesNumberParseException TOO_SHORT_NSN
           else phonenumbers.Parsed r
  | _ =>
      if negb (all_digits number) then phonenumbers.RaisesNumberParseException NOT_A_NUMBER
      else if bool_decide (region = Some "US") then phonenumbers.Parsed ("1" +:+ number)
           else phonenumbers.RaisesNumberParseException INVALID_COUNTRY_CODE
  end.

Definition region_code_for_number (n : string) : option string :=
  if String.prefix "1415" n then Some "US"
  else if String.prefix "44" n then Some "GB"
  else if String.prefix "888" n then Some "001"
  else None.

Definition is_possible_number (n : string) : bool :=
  Nat.leb 10 (String.length n) && Nat.leb (String.length n) 12.

Definition is_valid_number (n : string) : bool :=
  is_possible_number n && String.prefix "1415" n && Nat.eqb (String.length n) 11.

Definition number_type (n : string) : Z :=
  if String.prefix "1415" n then 2 else if String.prefix "44" n then 1 else 10.

Definition format_number (n : string) (f : phonenumbers.PhoneNumberFormat) : string :=
  match f with
  | phonenumbers.E164 => "+" +:+ digits_of n
  | _ => n
  end.

(** The values the [phonenumbers] package gives the constants. *)
#[export] Instance constants : phonenumbers.PhoneNumberType.Constants := {|
  phonenumbers.PhoneNumberType.FIXED_LINE := 0;
  phonenumbers.PhoneNumberType.MOBILE := 1;
  phonenumbers.PhoneNumberType.FIXED_LINE_OR_MOBILE := 2;
  phonenumbers.PhoneNumberType.TOLL_FREE := 3;
  phonenumbers.PhoneNumberType.PREMIUM_RATE := 4;
  phonenumbers.PhoneNumberType.SHARED_COST := 5;
  phonenumbers.PhoneNumberType.VOIP := 6;
  phonenumbers.PhoneNumberType.PERSONAL_NUMBER := 7;
  phonenumbers.PhoneNumberType.PAGER := 8;
  phonenumbers.PhoneNumberType.UAN := 9;
  phonenumbers.PhoneNumberType.UNKNOWN := 99
|}.

#[export] Instance numbering_plan : phonenumbers.Package := {|
  phonenumbers.PhoneNumber := string;
  phonenumbers.NumberParseException := error_type;
  phonenumbers.str_error := str_error;
  phonenumbers.str_number := λ n, "PhoneNumber(" +:+ n +:+ ")";
  phonenumbers.parse := parse;
  phonenumbers.region_code_for_number := region_code_for_number;
  phonenumbers.number_type := number_type;
  phonenumbers.is_valid_number := is_valid_number;
  phonenumbers.is_possible_number := is_possible_number;
  phonenumbers.format_number := format_number
|}.

Definition table : list pycountry.Country := [
  {| pycountry.name := "United States"; pycountry.alpha_2 := "US";
     pycountry.alpha_3 := Some "USA"; pycountry.numeric := Some "840" |};
  {| pycountry.name := "France"; pycountry.alpha_2 := "FR";
     pycountry.alpha_3 := Some "FRA"; pycountry.numeric := Some "250" |};
  {| pycountry.name := "United Kingdom"; pycountry.alpha_2 := "GB";
     pycountry.alpha_3 := Some "GBR"; pycountry.numeric := Some "826" |}
].

#[export] Instance country_table : pycountry.Package := {|
  pycountry.countries := table;
  pycountry.countries_get := λ code,
    pycountry.Returns (List.find (λ c, String.eqb (pycountry.alpha_2 c) code) table)
|}.

#[export] Instance env : Environ := {| environ := {[ "API_TOKEN" := "s3cret" ]} |}.

End Mini.

(** * Properties *)

(** ** Python built-ins *)

Lemma ltb_leb (s t : string) : String.ltb s t = true → String.leb s t = true.
Proof. unfold String.ltb, String.leb. by destruct (String.compare s t). Qed.

Lemma ltb_false_leb (s t : string) : String.ltb s t = false → String.leb t s = true.
Proof.
  unfold String.ltb, String.leb. rewrite (String.compare_antisym t s).
  by destruct (String.compare s t).
Qed.

Lemma leb_cases (s t : string) :
  String.leb s t = true ↔ s = t ∨ OrderedTypeEx.String_as_OT.lt s t.
Proof.
  unfold String.leb.
  rewrite <- OrderedTypeEx.String_as_OT.cmp_lt, <- OrderedTypeEx.String_as_OT.cmp_eq.
  unfold OrderedTypeEx.String_as_OT.cmp.
  destruct (String.compare s t); intuition congruence.
Qed.

Lemma leb_trans (s t u : string) :
  String.leb s t = true → String.leb t u = true → String.leb s u = true.
Proof.
  rewrite !leb_cases. intros [-> | Hst] [-> | Htu]; auto.
  right. eapply OrderedTypeEx.String_as_OT.lt_trans; eauto.
Qed.

Lemma upper_idemp (s : string) : upper (upper s) = upper s.
Proof.
  induction s as [| c s IH]; [done |]. cbn [upper]. f_equal; [| done].
  clear. by destruct c as [[] [] [] [] [] [] [] []]; vm_compute.
Qed.

Lemma foldl_insert_list_to_map `{Countable K} {V : Type}
    (items : list (K * V)) (m : gmap K V) :
  foldl (λ m kv, <[kv.1 := kv.2]> m) m items
  = list_to_map (reverse items ++ map_to_list m).
Proof.
  revert m. induction items as [| [k v] items IH]; intros m; cbn [foldl].
  - rewrite reverse_nil. cbn. by rewrite list_to_map_to_list.
  - rewrite IH, reverse_cons, <- app_assoc. cbn [app].
    rewrite !list_to_map_app. cbn [list_to_map foldr fst snd].
    by rewrite !list_to_map_to_list.
Qed.

Lemma dict_display_list_to_map `{Countable K} {V : Type} (items : list (K * V)) :
  dict_display items = list_to_map (reverse items).
Proof.
  unfold dict_display. rewrite foldl_insert_list_to_map.
  by rewrite map_to_list_empty, app_nil_r.
Qed.

Lemma dict_display_lookup `{Countable K} {V : Type} (items : list (K * V)) k v :
  NoDup items.*1 → (k, v) ∈ items → dict_display items !! k = Some v.
Proof.
  intros Hnd Hin. rewrite dict_display_list_to_map.
  apply elem_of_list_to_map_1; [| by apply elem_of_reverse].
  by rewrite fmap_reverse, reverse_Permutation.
Qed.

Lemma dict_display_lookup_None `{Countable K} {V : Type} (items : list (K * V)) k :
  k ∉ items.*1 → dict_display items !! k = None.
Proof.
  intros Hin. rewrite dict_display_list_to_map.
  apply not_elem_of_list_to_map_1. by rewrite fmap_reverse, elem_of_reverse.
Qed.

(** [sorted] rearranges its argument into ascending key order. *)
Section sorted_facts.
Context {A : Type} (key : A → string).

Lemma insort_Permutation (x : A) (l : list A) : insort key x l ≡ₚ x :: l.
Proof.
  induction l as [| y l IH]; cbn [insort]; [done |].
  destruct (String.ltb (key y) (key x)); [| done].
  by rewrite IH, Permutation_swap.
Qed.

Lemma sorted_Permutation (l : list A) : sorted key l ≡ₚ l.
Proof.
  induction l as [| x l IH]; cbn; [done |].
  by rewrite insort_Permutation, IH.
Qed.

Lemma sorted_length (l : list A) : length (sorted key l) = length l.
Proof. by rewrite sorted_Permutation. Qed.

Lemma insort_StronglySorted (x : A) (l : list A) :
  StronglySorted (key_le key) l → StronglySorted (key_le key) (insort key x l).
Proof.
  induction 1 as [| y l Hl IH Hy]; cbn [insort].
  - repeat constructor.
  - destruct (String.ltb (key y) (key x)) eqn:Hlt.
    + constructor; [done |].
      rewrite insort_Permutation. constructor; [| done].
      by apply ltb_leb.
    + apply ltb_false_leb in Hlt.
      constructor; [by constructor |].
      constructor; [done |].
      eapply Forall_impl; [exact Hy |].
      intros z Hz. unfold key_le in *. by eapply leb_trans.
Qed.

Lemma sorted_StronglySorted (l : list A) : StronglySorted (key_le key) (sorted key l).
Proof.
  induction l as [| x l IH]; cbn; [constructor |].
  by apply insort_StronglySorted.
Qed.

(** The sort is stable, so a list already in order is returned as it is. *)
Lemma insort_le_all (x : A) (l : list A) :
  Forall (key_le key x) l → insort key x l = x :: l.
Proof.
  destruct 1 as [| y l Hxy _]; [done |]. cbn [insort].
  unfold key_le, String.leb in Hxy. unfold String.ltb.
  rewrite (String.compare_antisym (key y) (key x)).
  by destruct (String.compare (key x) (key y)).
Qed.

Lemma sorted_of_sorted (l : list A) :
  StronglySorted (key_le key) l → sorted key l = l.
Proof.
  induction 1 as [| x l _ IH Hx]; [done |].
  cbn. change (foldr (insort key) [] l) with (sorted key l).
  by rewrite IH, insort_le_all.
Qed.

End sorted_facts.

(** ** The LRU cache *)
Section lru_facts.
Context {K V W : Type} `{EqDecision K}.
Variable maxsize : nat.
Variable user_function : K → W → V * W.

Lemma cache_get_Some (k : K) (v : V) (es : list (K * V)) :
  cache_get k es = Some v → (k, v) ∈ es.
Proof.
  induction es as [| [k' v'] es IH]; cbn; [done |].
  case_decide as Hk; [intros [= ->]; subst; left | right; auto].
Qed.

Lemma cache_get_None (k : K) (es : list (K * V)) :
  cache_get k es = None ↔ k ∉ es.*1.
Proof.
  induction es as [| [k' v'] es IH]; cbn.
  - split; [intros _ | done]. apply not_elem_of_nil.
  - rewrite not_elem_of_cons. case_decide as Hk.
    + split; [done | by intros [? _]].
    + rewrite IH. tauto.
Qed.

Lemma cache_remove_keys (k : K) (es : list (K * V)) :
  k ∉ (cache_remove k es).*1.
Proof.
  unfold cache_remove. intros ([k' v] & Hk & Hin)%list_elem_of_fmap.
  apply list_elem_of_filter in Hin as [Hne _]. cbn in *. by subst.
Qed.

Lemma cache_remove_length (k : K) (v : V) (es : list (K * V)) :
  (k, v) ∈ es → (length (cache_remove k es) < length es)%nat.
Proof.
  unfold cache_remove. induction es as [| e es IH]; [by intros ?%elem_of_nil |].
  intros [<- | Hin]%elem_of_cons.
  - rewrite filter_cons_False by (cbn; auto). cbn.
    pose proof (length_filter (λ e : K * V, e.1 ≠ k) es). lia.
  - specialize (IH Hin). rewrite filter_cons. case_decide; cbn; lia.
Qed.

(** The least recently used entry leaves a full cache. *)
Lemma removelast_take {A : Type} (l : list A) : removelast l = take (pred (length l)) l.
Proof. apply removelast_firstn_len. Qed.

Lemma lru_call_result (k : K) (c : lru K V) (w : W) :
  ∃ tl, entries (lru_call maxsize user_function k c w).1.2
        = ((k, (lru_call maxsize user_function k c w).1.1) :: tl).
Proof.
  unfold lru_call. destruct (cache_get k (entries c)); [by eexists |].
  destruct (user_function k w). by eexists.
Qed.

(** Calling again with the same argument is a hit: same value, the world
    untouched. *)
Lemma lru_call_again (k : K) (c : lru K V) (w : W) :
  let '(v1, c1, w1) := lru_call maxsize user_function k c w in
  let '(v2, c2, w2) := lru_call maxsize user_function k c1 w1 in
  v2 = v1 ∧ w2 = w1 ∧ hits c2 = S (hits c1) ∧ misses c2 = misses c1.
Proof.
  destruct (lru_call_result k c w) as [tl Htl].
  destruct (lru_call maxsize user_function k c w) as [[v1 c1] w1]. cbn in Htl.
  unfold lru_call. rewrite Htl. cbn [cache_get]. by rewrite decide_True.
Qed.

Lemma lru_call_entries (k : K) (c : lru K V) (w : W) :
  ∀ e, e ∈ entries (lru_call maxsize user_function k c w).1.2 →
       e = (k, (lru_call maxsize user_function k c w).1.1) ∨ e ∈ entries c.
Proof.
  intros e. unfold lru_call. destruct (cache_get k (entries c)) eqn:Hget.
  - cbn. intros [-> | Hin]%elem_of_cons; [by left | right].
    unfold cache_remove in Hin. by apply list_elem_of_filter in Hin as [_ ?].
  - destruct (user_function k w) as [v w']. cbn.
    intros [-> | Hin]%elem_of_cons; [by left | right].
    case_decide; [| done]. rewrite removelast_take in Hin.
    by eapply subseteq_take.
Qed.

Lemma lru_call_bounded (k : K) (c : lru K V) (w : W) :
  (0 < maxsize)%nat →
  (length (entries c) ≤ maxsize)%nat →
  (length (entries (lru_call maxsize user_function k c w).1.2) ≤ maxsize)%nat.
Proof.
  intros Hpos Hlen. unfold lru_call.
  destruct (cache_get k (entries c)) eqn:Hget.
  - apply cache_get_Some, cache_remove_length in Hget. cbn. lia.
  - destruct (user_function k w) as [v w']. cbn.
    case_decide; [| lia]. rewrite removelast_take, length_take. lia.
Qed.

Lemma lru_call_distinct (k : K) (c : lru K V) (w : W) :
  NoDup (entries c).*1 →
  NoDup (entries (lru_call maxsize user_function k c w).1.2).*1.
Proof.
  intros Hnd. unfold lru_call.
  destruct (cache_get k (entries c)) eqn:Hget.
  - cbn. constructor; [apply cache_remove_keys |].
    unfold cache_remove. eapply sublist_NoDup; [exact Hnd |].
    apply fmap_sublist, sublist_filter.
  - destruct (user_function k w) as [v w']. cbn.
    apply cache_get_None in Hget.
    assert (Hsub : (if decide (maxsize ≤ length (entries c))%nat
                    then removelast (entries c) else entries c).*1
                   `sublist_of` (entries c).*1).
    { case_decide; [| done]. rewrite removelast_take.
      apply fmap_sublist, sublist_take. }
    constructor; [| by eapply sublist_NoDup; [exact Hnd |]].
    intros Hin. apply Hget. by eapply elem_of_sublist.
Qed.

End lru_facts.

(** ** The application *)
Section properties.
Context {types : phonenumbers.PhoneNumberType.Constants} {lib : phonenumbers.Package}
        {tbl : pycountry.Package} {env : Environ}.

(** *** The metadata resolver *)

Lemma get_country_info_body_eq (k : option string) (q : list string) :
  get_country_info_body k q = (country_record k, q ++ queries_of k).
Proof.
  unfold country_record, get_country_info_body, queries_of.
  destruct k as [code |]; [| by rewrite app_nil_r].
  by destruct (pycountry.countries_get (upper code)) as [[c |] |].
Qed.

Lemma country_record_None : country_record None = None.
Proof. done. Qed.

Lemma country_record_upper (a b : string) :
  upper a = upper b → country_record (Some a) = country_record (Some b).
Proof. unfold country_record, get_country_info_body. by intros ->. Qed.

Lemma country_record_Some (k : option string) (d : country_dict) :
  country_record k = Some d →
  ∃ code c, k = Some code
    ∧ pycountry.countries_get (upper code) = pycountry.Returns (Some c)
    ∧ d = make_country_dict c.
Proof.
  unfold country_record, get_country_info_body.
  destruct k as [code |]; [| done].
  destruct (pycountry.countries_get (upper code)) as [[c |] |] eqn:Hget; cbn; try done.
  intros [= <-]. by exists code, c.
Qed.

Lemma make_country_dict_name (c : pycountry.Country) :
  make_country_dict c !! "name" = Some (Some (pycountry.name c)).
Proof.
  unfold make_country_dict, dict_display. cbn [foldl fst snd].
  do 3 (rewrite lookup_insert_ne by done). apply lookup_insert_eq.
Qed.

Lemma make_country_dict_nonempty (c : pycountry.Country) : make_country_dict c ≠ ∅.
Proof.
  intros Heq. pose proof (make_country_dict_name c) as Hname.
  by rewrite Heq, lookup_empty in Hname.
Qed.

Lemma truthy_country_record (k : option string) :
  truthy_dict (country_record k) = true ↔ country_record k ≠ None.
Proof.
  destruct (country_record k) as [d |] eqn:Hk; cbn; [| done].
  apply country_record_Some in Hk as (code & c & _ & _ & ->).
  by rewrite bool_decide_false by apply make_country_dict_nonempty.
Qed.

Lemma initial_state_ok : cache_ok initial_state.
Proof.
  split; cbn; [lia | constructor |]. by intros k v ?%elem_of_nil.
Qed.

Lemma get_country_info_value (k : option string) (st : app_state) :
  cache_ok st → (get_country_info k st).1 = country_record k.
Proof.
  intros [_ _ Hsound]. unfold get_country_info, lru_call.
  destruct (cache_get k (entries (country_cache st))) as [v |] eqn:Hget; cbn.
  - by apply Hsound, cache_get_Some.
  - by rewrite get_country_info_body_eq.
Qed.

Lemma get_country_info_ok (k : option string) (st : app_state) :
  cache_ok st → cache_ok (get_country_info k st).2.
Proof.
  intros Hok. pose proof (get_country_info_value k st Hok) as Hval.
  destruct Hok as [Hlen Hnd Hsound].
  pose proof (lru_call_bounded 256 get_country_info_body k (country_cache st)
                (table_queries st) ltac:(lia) Hlen) as Hlen'.
  pose proof (lru_call_distinct 256 get_country_info_body k (country_cache st)
                (table_queries st) Hnd) as Hnd'.
  pose proof (lru_call_entries 256 get_country_info_body k (country_cache st)
                (table_queries st)) as Hent.
  unfold get_country_info in *.
  destruct (lru_call 256 get_country_info_body k (country_cache st) (table_queries st))
    as [[v c] q]; cbn in *.
  split; cbn; [done | done |].
  intros k' v' [[= -> ->] | Hin]%Hent; [done | by apply Hsound].
Qed.

(** What a call adds to the trace of table queries: nothing on a hit, the
    uppercased argument on a miss. *)
Lemma get_country_info_queries (k : option string) (st : app_state) :
  table_queries (get_country_info k st).2
  = table_queries st
    ++ match cache_get k (entries (country_cache st)) with
       | Some _ => []
       | None => queries_of k
       end.
Proof.
  unfold get_country_info, lru_call.
  destruct (cache_get k (entries (country_cache st))); cbn; [by rewrite app_nil_r |].
  by rewrite get_country_info_body_eq.
Qed.

(** *** The routes, case by case *)

Lemma startswith_plus (phone : string) : startswith ("+" +:+ phone) "+" = true.
Proof. unfold startswith. cbn. by destruct phone. Qed.

Lemma coerce_phone_idemp (phone : string) (country : option string) :
  coerce_phone (coerce_phone phone country) country = coerce_phone phone country.
Proof.
  unfold coerce_phone.
  destruct (negb (startswith phone "+") && negb (truthy country)) eqn:Hcase.
  - by rewrite startswith_plus.
  - by rewrite Hcase.
Qed.

Lemma lookup_unauthorized phone country tok st :
  validate_api_token (Some tok) = false →
  lookup_phone_number phone country tok st
  = (HTTPException 401 "Invalid or missing API token", st).
Proof. unfold lookup_phone_number. by intros ->. Qed.

Lemma lookup_parse_error phone country tok st e :
  validate_api_token (Some tok) = true →
  phonenumbers.parse (coerce_phone phone country) country
    = phonenumbers.RaisesNumberParseException e →
  lookup_phone_number phone country tok st
  = (HTTPException 400 "Invalid phone number format", st).
Proof. unfold lookup_phone_number. by intros -> ->. Qed.

Lemma lookup_other_error phone country tok st e :
  validate_api_token (Some tok) = true →
  phonenumbers.parse (coerce_phone phone country) country
    = phonenumbers.RaisesException e →
  lookup_phone_number phone country tok st
  = (HTTPException 400 "Error parsing phone number", st).
Proof. unfold lookup_phone_number. by intros -> ->. Qed.

Lemma lookup_not_found phone country tok st n :
  validate_api_token (Some tok) = true →
  cache_ok st →
  phonenumbers.parse (coerce_phone phone country) country = phonenumbers.Parsed n →
  country_record (phonenumbers.region_code_for_number n) = None →
  lookup_phone_number phone country tok st
  = (HTTPException 404
       ("Country not found: " +:+ fstr (phonenumbers.region_code_for_number n)),
     (get_country_info (phonenumbers.region_code_for_number n) st).2).
Proof.
  intros Htok Hok Hparse Hrec. unfold lookup_phone_number. rewrite Htok, Hparse. cbn.
  pose proof (get_country_info_value (phonenumbers.region_code_for_number n) st Hok) as Hv.
  destruct (get_country_info (phonenumbers.region_code_for_number n) st) as [info st'].
  cbn in Hv. by rewrite Hv, Hrec.
Qed.

Lemma lookup_found phone country tok st n code c :
  validate_api_token (Some tok) = true →
  cache_ok st →
  phonenumbers.parse (coerce_phone phone country) country = phonenumbers.Parsed n →
  phonenumbers.region_code_for_number n = Some code →
  pycountry.countries_get (upper code) = pycountry.Returns (Some c) →
  lookup_phone_number phone country tok st
  = (Return {|
       PhoneNumberInfo.phone_number := phonenumbers.str_number n;
       PhoneNumberInfo.country_code := code;
       PhoneNumberInfo.country_name := pycountry.name c;
       PhoneNumberInfo.country_region := None;
       PhoneNumberInfo.number_type := get_number_type_name (phonenumbers.number_type n);
       PhoneNumberInfo.is_valid := phonenumbers.is_valid_number n;
       PhoneNumberInfo.is_possible := phonenumbers.is_possible_number n;
       PhoneNumberInfo.formatted_e164 := phonenumbers.format_number n phonenumbers.E164;
       PhoneNumberInfo.formatted_national :=
         phonenumbers.format_number n phonenumbers.NATIONAL;
       PhoneNumberInfo.timezone := None
     |}, (get_country_info (Some code) st).2).
Proof.
  intros Htok Hok Hparse Hregion Hget. unfold lookup_phone_number.
  rewrite Htok, Hparse. cbn. rewrite Hregion.
  pose proof (get_country_info_value (Some code) st Hok) as Hv.
  destruct (get_country_info (Some code) st) as [info st']. cbn in Hv. subst info.
  unfold country_record, get_country_info_body. rewrite Hget. cbn.
  rewrite bool_decide_false by apply make_country_dict_nonempty.
  cbn [negb mbind option_bind].
  change (_ !! "name") with (make_country_dict c !! "name").
  by rewrite make_country_dict_name.
Qed.

(** [/lookup] keeps the cache invariant, whatever it answers. *)
Lemma lookup_phone_number_ok phone country tok st :
  cache_ok st → cache_ok (lookup_phone_number phone country tok st).2.
Proof.
  intros Hok. unfold lookup_phone_number.
  destruct (validate_api_token (Some tok)); cbn; [| done].
  destruct (phonenumbers.parse (coerce_phone phone country) country) as [n | e | e];
    [| done | done].
  pose proof (get_country_info_ok (phonenumbers.region_code_for_number n) st Hok) as Hok'.
  destruct (get_country_info (phonenumbers.region_code_for_number n) st) as [ci st1].
  cbn in Hok'.
  destruct (truthy_dict ci); cbn; [| done].
  destruct (ci ≫= (.!! "name")) as [[nm |] |]; [| | done];
    by destruct (phonenumbers.region_code_for_number n).
Qed.

(** A response of [/lookup] always falls under one of the cases above. *)
Lemma lookup_return_inv phone country tok st info st' :
  lookup_phone_number phone country tok st = (Return info, st') →
  ∃ n, phonenumbers.parse (coerce_phone phone country) country = phonenumbers.Parsed n
    ∧ PhoneNumberInfo.phone_number info = phonenumbers.str_number n
    ∧ PhoneNumberInfo.is_valid info = phonenumbers.is_valid_number n
    ∧ PhoneNumberInfo.is_possible info = phonenumbers.is_possible_number n
    ∧ PhoneNumberInfo.formatted_e164 info
        = phonenumbers.format_number n phonenumbers.E164
    ∧ PhoneNumberInfo.formatted_national info
        = phonenumbers.format_number n phonenumbers.NATIONAL.
Proof.
  unfold lookup_phone_number.
  destruct (validate_api_token (Some tok)); cbn; [| done].
  destruct (phonenumbers.parse (coerce_phone phone country) country) as [n | e | e];
    [| done | done].
  destruct (get_country_info (phonenumbers.region_code_for_number n) st) as [ci st1].
  destruct (truthy_dict ci); cbn; [| done].
  destruct (ci ≫= (.!! "name")) as [[nm |] |]; [| | done].
  - destruct (phonenumbers.region_code_for_number n); [| done].
    intros [= <- <-]. by exists n.
  - by destruct (phonenumbers.region_code_for_number n).
Qed.

Lemma validate_unauthorized phone country tok :
  validate_api_token (Some tok) = false →
  validate_phone_number phone country tok
  = HTTPException 401 "Invalid or missing API token".
Proof. unfold validate_phone_number. by intros ->. Qed.

Lemma validate_parsed phone country tok n :
  validate_api_token (Some tok) = true →
  phonenumbers.parse (coerce_phone phone country) country = phonenumbers.Parsed n →
  validate_phone_number phone country tok
  = Return {|
      ValidationResult.phone := coerce_phone phone country;
      ValidationResult.is_valid := phonenumbers.is_valid_number n;
      ValidationResult.is_possible := phonenumbers.is_possible_number n;
      ValidationResult.country_code := phonenumbers.region_code_for_number n;
      ValidationResult.error := None
    |}.
Proof. unfold validate_phone_number. by intros -> ->. Qed.

Lemma validate_parse_error phone country tok e :
  validate_api_token (Some tok) = true →
  phonenumbers.parse (coerce_phone phone country) country
    = phonenumbers.RaisesNumberParseException e →
  validate_phone_number phone country tok
  = Return {|
      ValidationResult.phone := coerce_phone phone country;
      ValidationResult.is_valid := false;
      ValidationResult.is_possible := false;
      ValidationResult.country_code := None;
      ValidationResult.error := Some (phonenumbers.str_error e)
    |}.
Proof. unfold validate_phone_number. by intros -> ->. Qed.

Lemma validate_return_inv phone country tok r :
  validate_phone_number phone country tok = Return r →
  ValidationResult.phone r = coerce_phone phone country
  ∧ ((∃ n, phonenumbers.parse (coerce_phone phone country) country = phonenumbers.Parsed n
         ∧ ValidationResult.is_valid r = phonenumbers.is_valid_number n
         ∧ ValidationResult.is_possible r = phonenumbers.is_possible_number n
         ∧ ValidationResult.country_code r = phonenumbers.region_code_for_number n
         ∧ ValidationResult.error r = None)
     ∨ (∃ e, phonenumbers.parse (coerce_phone phone country) country
               = phonenumbers.RaisesNumberParseException e
         ∧ ValidationResult.is_valid r = false
         ∧ ValidationResult.is_possible r = false
         ∧ ValidationResult.country_code r = None
         ∧ ValidationResult.error r = Some (phonenumbers.str_error e))).
Proof.
  unfold validate_phone_number.
  destruct (validate_api_token (Some tok)); cbn; [| done].
  destruct (phonenumbers.parse (coerce_phone phone country) country) as [n | e | e];
    [| | done]; intros [= <-]; (split; [done |]); [left | right]; eauto 10.
Qed.

(** *** Number classifier *)

(** C5: [get_number_type_name] is a total function.  When the eleven
    [PhoneNumberType] constants it names are distinct integers, each of
    them is mapped to its own fixed label, and every integer outside the
    eleven is mapped to ["UNKNOWN"]. *)
Theorem get_number_type_name_total :
  let known := [ phonenumbers.PhoneNumberType.MOBILE;
                 phonenumbers.PhoneNumberType.FIXED_LINE;
                 phonenumbers.PhoneNumberType.FIXED_LINE_OR_MOBILE;
                 phonenumbers.PhoneNumberType.TOLL_FREE;
                 phonenumbers.PhoneNumberType.PREMIUM_RATE;
                 phonenumbers.PhoneNumberType.SHARED_COST;
                 phonenumbers.PhoneNumberType.VOIP;
                 phonenumbers.PhoneNumberType.PERSONAL_NUMBER;
                 phonenumbers.PhoneNumberType.PAGER;
                 phonenumbers.PhoneNumberType.UAN;
                 phonenumbers.PhoneNumberType.UNKNOWN ] in
  NoDup known →
  get_number_type_name phonenumbers.PhoneNumberType.MOBILE = "MOBILE"
  ∧ get_number_type_name phonenumbers.PhoneNumberType.FIXED_LINE = "FIXED_LINE"
  ∧ get_number_type_name phonenumbers.PhoneNumberType.FIXED_LINE_OR_MOBILE
    = "FIXED_LINE_OR_MOBILE"
  ∧ get_number_type_name phonenumbers.PhoneNumberType.TOLL_FREE = "TOLL_FREE"
  ∧ get_number_type_name phonenumbers.PhoneNumberType.PREMIUM_RATE = "PREMIUM_RATE"
  ∧ get_number_type_name phonenumbers.PhoneNumberType.SHARED_COST = "SHARED_COST"
  ∧ get_number_type_name phonenumbers.PhoneNumberType.VOIP = "VOIP"
  ∧ get_number_type_name phonenumbers.PhoneNumberType.PERSONAL_NUMBER
    = "PERSONAL_NUMBER"
  ∧ get_number_type_name phonenumbers.PhoneNumberType.PAGER = "PAGER"
  ∧ get_number_type_name phonenumbers.PhoneNumberType.UAN = "UAN"
  ∧ get_number_type_name phonenumbers.PhoneNumberType.UNKNOWN = "UNKNOWN"
  ∧ ∀ x : Z, x ∉ known → get_number_type_name x = "UNKNOWN".
Proof.
  intros known Hnd. unfold get_number_type_name, dict_get, _NUMBER_TYPE_MAPPING.
  repeat split;
    try (erewrite dict_display_lookup;
         [reflexivity | exact Hnd
         | repeat first [apply list_elem_of_here | apply list_elem_of_further]]).
  intros x Hx. by rewrite dict_display_lookup_None.
Qed.

(** *** Token authenticator *)

(** C6: [validate_api_token] rejects an absent and an empty token; a
    non-empty token is accepted exactly when it equals the configured
    secret [API_TOKEN], so every other string is rejected, and the secret
    itself is accepted (when it is not the empty string, which the first
    rule rejects). *)
Theorem validate_api_token_spec :
  validate_api_token None = false
  ∧ validate_api_token (Some "") = false
  ∧ (∀ s : string, s ≠ "" → (validate_api_token (Some s) = true ↔ s = API_TOKEN))
  ∧ (∀ s : string, s ≠ API_TOKEN → validate_api_token (Some s) = false)
  ∧ (API_TOKEN ≠ "" → validate_api_token (Some API_TOKEN) = true).
Proof.
  unfold validate_api_token. repeat split.
  - destruct s; [done |]. cbn. rewrite bool_decide_eq_true. by intros [= ->].
  - intros <-. destruct s; [done |]. cbn. by rewrite bool_decide_eq_true.
  - intros s Hs. destruct s; [done |]. cbn. rewrite bool_decide_eq_false. congruence.
  - intros Hne. destruct API_TOKEN; [done |]. cbn. by rewrite bool_decide_eq_true.
Qed.

(** *** The plus-sign coercion *)

Lemma plus_prefix_neq (phone : string) : "+" +:+ phone ≠ phone.
Proof.
  induction phone as [| c s IH]; [done |].
  cbn. intros Heq. injection Heq as Hc Hs. subst c. by apply IH.
Qed.

Lemma truthy_false (x : option string) : truthy x = false ↔ x = None ∨ x = Some "".
Proof. destruct x as [[] |]; cbn; intuition congruence. Qed.

(** C8: both number routes put a plus sign in front of [phone] exactly when
    [phone] does not start with one and no country hint is given ([country]
    is [None] or empty, Python's [not country]); otherwise [phone] is used
    as it is.  The coerced string is what both routes hand to the parser,
    and [/validate] echoes it in the [phone] field of its result. *)
Theorem plus_prefix_coercion phone country tok st :
  validate_api_token (Some tok) = true →
  let p := coerce_phone phone country in
  (p = "+" +:+ phone ↔ startswith phone "+" = false ∧ truthy country = false)
  ∧ (p = phone ↔ startswith phone "+" = true ∨ truthy country = true)
  ∧ (truthy country = false ↔ country = None ∨ country = Some "")
  ∧ (∀ r, validate_phone_number phone country tok = Return r →
          ValidationResult.phone r = p)
  ∧ (∀ e, phonenumbers.parse p country = phonenumbers.RaisesNumberParseException e →
          (lookup_phone_number phone country tok st).1
            = HTTPException 400 "Invalid phone number format"
          ∧ ∃ r, validate_phone_number phone country tok = Return r
                 ∧ ValidationResult.phone r = p
                 ∧ ValidationResult.error r = Some (phonenumbers.str_error e))
  ∧ (∀ n, phonenumbers.parse p country = phonenumbers.Parsed n →
          status (lookup_phone_number phone country tok st).1 ≠ 400
          ∧ (∀ info, (lookup_phone_number phone country tok st).1 = Return info →
                PhoneNumberInfo.phone_number info = phonenumbers.str_number n)
          ∧ ∃ r, validate_phone_number phone country tok = Return r
                 ∧ ValidationResult.phone r = p
                 ∧ ValidationResult.is_valid r = phonenumbers.is_valid_number n).
Proof.
  intros Htok p. subst p. split_and!.
  - pose proof (plus_prefix_neq phone). unfold coerce_phone.
    destruct (startswith phone "+"), (truthy country); cbn; intuition congruence.
  - pose proof (plus_prefix_neq phone). unfold coerce_phone.
    destruct (startswith phone "+"), (truthy country); cbn; intuition congruence.
  - apply truthy_false.
  - by intros r [? _]%validate_return_inv.
  - intros e He. split.
    + by erewrite lookup_parse_error.
    + eexists. split; [by eapply validate_parse_error | done].
  - intros n Hn. split; [| split].
    + unfold lookup_phone_number. rewrite Htok, Hn. cbn.
      destruct (get_country_info _ st) as [ci st1].
      destruct (truthy_dict ci); cbn; [| done].
      destruct (ci ≫= (.!! "name")) as [[nm |] |];
        by destruct (phonenumbers.region_code_for_number n).
    + intros info Hinfo.
      destruct (lookup_phone_number phone country tok st) as [resp st1] eqn:Hl.
      cbn in Hinfo. subst resp.
      apply lookup_return_inv in Hl as (n' & Hn' & Hpn & _). congruence.
    + eexists. split; [by eapply validate_parsed | done].
Qed.

(** *** Validity and possibility *)

(** C4: taking from the numbering-plan library that a valid number is a
    possible number, every record returned by [/lookup] and by [/validate]
    with [is_valid] set has [is_possible] set. *)
Theorem valid_implies_possible :
  (∀ n, phonenumbers.is_valid_number n = true →
        phonenumbers.is_possible_number n = true) →
  (∀ phone country tok st info st',
     lookup_phone_number phone country tok st = (Return info, st') →
     PhoneNumberInfo.is_valid info = true → PhoneNumberInfo.is_possible info = true)
  ∧ (∀ phone country tok r,
       validate_phone_number phone country tok = Return r →
       ValidationResult.is_valid r = true → ValidationResult.is_possible r = true).
Proof.
  intros Hlib. split.
  - intros phone country tok st info st' Hl.
    apply lookup_return_inv in Hl as (n & _ & _ & -> & -> & _). apply Hlib.
  - intros phone country tok r Hv.
    apply validate_return_inv in Hv as [_ [(n & _ & -> & -> & _) | (e & _ & -> & _)]];
      [apply Hlib | done].
Qed.

(** *** Canonical forms *)

(** C9: in a successful [/lookup], [phone_number] is the library's string
    form of the parsed number and [formatted_e164] is its E.164 rendering;
    both depend on the parsed number only.  Taking from the library that
    an E.164 rendering is a plus sign followed by digits, [formatted_e164]
    has that shape. *)
Theorem lookup_canonical_forms phone country tok st info st' :
  (∀ n, e164_shaped (phonenumbers.format_number n phonenumbers.E164) = true) →
  lookup_phone_number phone country tok st = (Return info, st') →
  ∃ n, phonenumbers.parse (coerce_phone phone country) country = phonenumbers.Parsed n
    ∧ PhoneNumberInfo.phone_number info = phonenumbers.str_number n
    ∧ PhoneNumberInfo.formatted_e164 info
        = phonenumbers.format_number n phonenumbers.E164
    ∧ e164_shaped (PhoneNumberInfo.formatted_e164 info) = true.
Proof.
  intros Hlib Hl. apply lookup_return_inv in Hl as (n & Hn & Hpn & _ & _ & He164 & _).
  exists n. by rewrite He164.
Qed.

(** *** A number without a region *)

(** C10: when the number parses but the library infers no region, the
    resolver is called with [None], turns the failed uppercasing into "not
    found" without querying the table, and [/lookup] answers 404. *)
Theorem lookup_without_region phone country tok st n :
  validate_api_token (Some tok) = true →
  cache_ok st →
  phonenumbers.parse (coerce_phone phone country) country = phonenumbers.Parsed n →
  phonenumbers.region_code_for_number n = None →
  (get_country_info None st).1 = None
  ∧ (lookup_phone_number phone country tok st).1
    = HTTPException 404 "Country not found: None"
  ∧ table_queries (lookup_phone_number phone country tok st).2 = table_queries st.
Proof.
  intros Htok Hok Hparse Hregion. split; [| split].
  - by rewrite get_country_info_value.
  - erewrite lookup_not_found by (try done; by rewrite Hregion).
    cbn. by rewrite Hregion.
  - erewrite lookup_not_found by (try done; by rewrite Hregion).
    cbn. rewrite Hregion, get_country_info_queries.
    destruct (cache_get _ _); cbn; by rewrite app_nil_r.
Qed.

(** *** Outcomes of [/lookup] *)

(** C2: for an authenticated request, [/lookup] raises HTTP 400 exactly
    when the (coerced) phone string does not parse, raises HTTP 404 exactly
    when it parses and the resolver has no record for the inferred region,
    and otherwise returns the record composed from the parsed number and
    the country found for its region. *)
Theorem lookup_phone_number_outcomes phone country tok st :
  validate_api_token (Some tok) = true →
  cache_ok st →
  let p := coerce_phone phone country in
  let r := (lookup_phone_number phone country tok st).1 in
  ((∃ detail, r = HTTPException 400 detail)
     ↔ ¬ ∃ n, phonenumbers.parse p country = phonenumbers.Parsed n)
  ∧ ((∃ detail, r = HTTPException 404 detail)
     ↔ ∃ n, phonenumbers.parse p country = phonenumbers.Parsed n
          ∧ (get_country_info (phonenumbers.region_code_for_number n) st).1 = None)
  ∧ (∀ n, phonenumbers.parse p country = phonenumbers.Parsed n →
          (get_country_info (phonenumbers.region_code_for_number n) st).1 ≠ None →
          ∃ code c,
            phonenumbers.region_code_for_number n = Some code
            ∧ pycountry.countries_get (upper code) = pycountry.Returns (Some c)
            ∧ r = Return {|
                PhoneNumberInfo.phone_number := phonenumbers.str_number n;
                PhoneNumberInfo.country_code := code;
                PhoneNumberInfo.country_name := pycountry.name c;
                PhoneNumberInfo.country_region := None;
                PhoneNumberInfo.number_type :=
                  get_number_type_name (phonenumbers.number_type n);
                PhoneNumberInfo.is_valid := phonenumbers.is_valid_number n;
                PhoneNumberInfo.is_possible := phonenumbers.is_possible_number n;
                PhoneNumberInfo.formatted_e164 :=
                  phonenumbers.format_number n phonenumbers.E164;
                PhoneNumberInfo.formatted_national :=
                  phonenumbers.format_number n phonenumbers.NATIONAL;
                PhoneNumberInfo.timezone := None
              |}).
Proof.
  intros Htok Hok p r. subst p r.
  destruct (phonenumbers.parse (coerce_phone phone country) country)
    as [n | e | e] eqn:Hparse.
  - (* the number parses *)
    pose proof (get_country_info_value (phonenumbers.region_code_for_number n) st Hok)
      as Hval.
    destruct (country_record (phonenumbers.region_code_for_number n)) as [d |] eqn:Hrec.
    + destruct (country_record_Some _ _ Hrec) as (code & c & Hregion & Hget & ->).
      rewrite (lookup_found _ _ _ _ _ _ _ Htok Hok Hparse Hregion Hget). cbn.
      split_and!.
      * split; [by intros [? ?] | intros []; eauto].
      * split; [by intros [? ?] |].
        intros (n' & [= <-] & Hnone). congruence.
      * intros n' [= <-] _. by exists code, c.
    + rewrite (lookup_not_found _ _ _ _ _ Htok Hok Hparse Hrec). cbn.
      split_and!.
      * split; [by intros [? ?] | intros []; eauto].
      * split; [| by eauto]. intros _. by exists n.
      * intros n' [= <-] Hne. congruence.
  - rewrite (lookup_parse_error _ _ _ _ _ Htok Hparse). cbn. split_and!.
    + split; [by intros _ [? ?] | by eauto].
    + split; [by intros [? ?] | by intros (? & ? & _)].
    + done.
  - rewrite (lookup_other_error _ _ _ _ _ Htok Hparse). cbn. split_and!.
    + split; [by intros _ [? ?] | by eauto].
    + split; [by intros [? ?] | by intros (? & ? & _)].
    + done.
Qed.

(** *** Outcomes of [/validate] *)

(** C1, as the code has it: for an authenticated request, a
    [NumberParseException] of the parser becomes a result with [is_valid]
    and [is_possible] false, no [country_code] and the (non-empty) message
    of the exception as [error]; a number that parses yields the library's
    verdicts, the inferred region and no [error].  Among the results,
    [error] is set exactly on a parse failure.  [country_code] is the
    inferred region, so it is absent on a parse failure and also when the
    library infers no region for a parsed number. *)
Theorem validate_phone_number_outcomes phone country tok :
  validate_api_token (Some tok) = true →
  (∀ e, phonenumbers.str_error e ≠ "") →
  let p := coerce_phone phone country in
  (∀ e, phonenumbers.parse p country = phonenumbers.RaisesNumberParseException e →
        validate_phone_number phone country tok
        = Return {|
            ValidationResult.phone := p;
            ValidationResult.is_valid := false;
            ValidationResult.is_possible := false;
            ValidationResult.country_code := None;
            ValidationResult.error := Some (phonenumbers.str_error e)
          |})
  ∧ (∀ n, phonenumbers.parse p country = phonenumbers.Parsed n →
          validate_phone_number phone country tok
          = Return {|
              ValidationResult.phone := p;
              ValidationResult.is_valid := phonenumbers.is_valid_number n;
              ValidationResult.is_possible := phonenumbers.is_possible_number n;
              ValidationResult.country_code := phonenumbers.region_code_for_number n;
              ValidationResult.error := None
            |})
  ∧ (∀ r, validate_phone_number phone country tok = Return r →
          (is_Some (ValidationResult.error r)
             ↔ ∃ e, phonenumbers.parse p country
                    = phonenumbers.RaisesNumberParseException e)
          ∧ ValidationResult.error r ≠ Some ""
          ∧ (ValidationResult.country_code r = None
             ↔ (∃ e, phonenumbers.parse p country
                     = phonenumbers.RaisesNumberParseException e)
               ∨ (∃ n, phonenumbers.parse p country = phonenumbers.Parsed n
                       ∧ phonenumbers.region_code_for_number n = None))).
Proof.
  intros Htok Hmsg p. subst p. split_and!.
  - intros e He. by apply validate_parse_error.
  - intros n Hn. by apply validate_parsed.
  - intros r Hr.
    apply validate_return_inv in Hr
      as [_ [(n & Hn & _ & _ & Hcc & Herr) | (e & He & _ & _ & Hcc & Herr)]];
      rewrite Hcc, Herr, ?Hn, ?He; split_and!.
    + split; [by intros [? ?] | by intros [? ?]].
    + done.
    + split; [intros Hnone; right; by exists n | ].
      intros [[? ?] | (n' & [= <-] & ?)]; done.
    + split; [by eauto | done].
    + intros [= Hempty]. by apply (Hmsg e).
    + split; [by eauto | done].
Qed.

(** *** Memoization in the resolver *)

(** C3, as the code has it: the table is queried with the uppercased code,
    so codes that differ only in case get equal records; the cache is keyed
    by the argument as it was passed, so of two consecutive calls the
    second is a hit (same record, no table query) when the arguments are
    the same string; the cache never holds more than 256 entries, one per
    argument. *)
Theorem get_country_info_memoized st a b :
  cache_ok st →
  let c1 := get_country_info (Some a) st in
  let c2 := get_country_info (Some b) c1.2 in
  (table_queries c1.2 = table_queries st
   ∨ table_queries c1.2 = table_queries st ++ [upper a])
  ∧ (upper a = upper b → c2.1 = c1.1)
  ∧ (a = b → c2.1 = c1.1
             ∧ table_queries c2.2 = table_queries c1.2
             ∧ hits (country_cache c2.2) = S (hits (country_cache c1.2))
             ∧ misses (country_cache c2.2) = misses (country_cache c1.2))
  ∧ (length (entries (country_cache c2.2)) ≤ 256)%nat
  ∧ NoDup (entries (country_cache c2.2)).*1
  ∧ cache_ok c2.2.
Proof.
  intros Hok c1 c2.
  assert (Hok1 : cache_ok c1.2) by by apply get_country_info_ok.
  assert (Hok2 : cache_ok c2.2) by by apply get_country_info_ok.
  split_and!; [| | | apply Hok2 | apply Hok2 | done].
  - subst c1. rewrite get_country_info_queries.
    destruct (cache_get _ _); [left; by rewrite app_nil_r | by right].
  - intros Hab. subst c1 c2.
    rewrite !get_country_info_value by done. symmetry. by apply country_record_upper.
  - intros <-. subst c1 c2. unfold get_country_info.
    pose proof (lru_call_again 256 get_country_info_body (Some a)
                  (country_cache st) (table_queries st)) as Hagain.
    destruct (lru_call 256 get_country_info_body (Some a) (country_cache st)
                (table_queries st)) as [[v1 k1] q1]. cbn.
    destruct (lru_call 256 get_country_info_body (Some a) k1 q1) as [[v2 k2] q2]. cbn.
    naive_solver.
Qed.

(** *** The country listing *)

(** C7: for an authenticated request over a table whose records all carry
    [alpha_3] and [numeric] and whose [alpha_2] codes are distinct,
    [/supported-countries] returns every record of the table projected to
    its four fields, in ascending order of [name], with [total] the length
    of the sequence and no [alpha_2] twice. *)
Theorem get_supported_countries_spec tok :
  validate_api_token (Some tok) = true →
  Forall (λ c, is_Some (pycountry.alpha_3 c) ∧ is_Some (pycountry.numeric c))
         pycountry.countries →
  NoDup (pycountry.alpha_2 <$> pycountry.countries) →
  ∃ r projected,
    get_supported_countries tok = Return r
    ∧ Forall2 (λ c i, CountryInfo.name i = pycountry.name c
                      ∧ CountryInfo.alpha_2 i = pycountry.alpha_2 c
                      ∧ Some (CountryInfo.alpha_3 i) = pycountry.alpha_3 c
                      ∧ Some (CountryInfo.numeric i) = pycountry.numeric c)
              pycountry.countries projected
    ∧ CountriesResponse.countries r ≡ₚ projected
    ∧ StronglySorted (key_le CountryInfo.name) (CountriesResponse.countries r)
    ∧ CountriesResponse.total r = length (CountriesResponse.countries r)
    ∧ CountriesResponse.total r = length pycountry.countries
    ∧ NoDup (CountryInfo.alpha_2 <$> CountriesResponse.countries r).
Proof.
  intros Htok Hcomplete Hnd. unfold get_supported_countries. rewrite Htok. cbn.
  destruct (mapM country_info_of pycountry.countries) as [l |] eqn:Hmap.
  - apply mapM_Some in Hmap.
    assert (Hproj : Forall2 (λ c i, CountryInfo.name i = pycountry.name c
                      ∧ CountryInfo.alpha_2 i = pycountry.alpha_2 c
                      ∧ Some (CountryInfo.alpha_3 i) = pycountry.alpha_3 c
                      ∧ Some (CountryInfo.numeric i) = pycountry.numeric c)
              pycountry.countries l).
    { eapply Forall2_impl; [exact Hmap |]. intros c i. unfold country_info_of.
      destruct (pycountry.alpha_3 c), (pycountry.numeric c); [| done..].
      by intros [= <-]. }
    eexists _, l. split_and!; [done | done | | | done | |]; cbn.
    + apply sorted_Permutation.
    + apply sorted_StronglySorted.
    + rewrite sorted_length. symmetry. by eapply Forall2_length.
    + rewrite sorted_Permutation.
      replace (CountryInfo.alpha_2 <$> l) with (pycountry.alpha_2 <$> pycountry.countries);
        [done |].
      clear -Hproj. induction Hproj as [| c i cs l (_ & Ha2 & _) _ IH]; [done |].
      cbn. by rewrite IH, Ha2.
  - apply mapM_None, Exists_exists in Hmap as (c & Hin & Hnone).
    rewrite Forall_forall in Hcomplete. destruct (Hcomplete c Hin) as [[a3 Ha3] [nm Hnm]].
    unfold country_info_of in Hnone. by rewrite Ha3, Hnm in Hnone.
Qed.

End properties.

(** * Further properties *)

(** ** More on the built-ins *)

Lemma split_nonempty (sep : ascii) (s : string) : split sep s ≠ [].
Proof.
  destruct s as [| c r]; cbn; [done |].
  destruct (Ascii.eqb c sep); [done |]. by destruct (split sep r).
Qed.

Lemma join_cons (sep p q : string) (qs : list string) :
  join sep (p :: q :: qs) = p +:+ sep +:+ join sep (q :: qs).
Proof. done. Qed.

Lemma join_split (sep : ascii) (s : string) :
  join (String sep EmptyString) (split sep s) = s.
Proof.
  induction s as [| c r IH]; [done |]. cbn [split].
  destruct (Ascii.eqb_spec c sep) as [-> | Hne].
  - pose proof (split_nonempty sep r) as Hr.
    cbn [join]. destruct (split sep r) as [| p ps]; [done |].
    cbn [String.append]. by rewrite IH.
  - pose proof (split_nonempty sep r) as Hr.
    destruct (split sep r) as [| p ps]; [done |].
    destruct ps as [| q qs]; [cbn in *; by rewrite IH |].
    rewrite join_cons in *. by rewrite <- IH.
Qed.

Lemma split_no_sep (sep : ascii) (s : string) : Forall (no_sep sep) (split sep s).
Proof.
  induction s as [| c r IH]; cbn [split]; [by repeat constructor |].
  destruct (Ascii.eqb_spec c sep) as [-> | Hne]; [by constructor |].
  destruct (split sep r) as [| p ps]; [by repeat constructor |].
  apply Forall_cons in IH as [Hp Hps]. by constructor.
Qed.

Lemma split_piece (sep : ascii) (p rest : string) :
  no_sep sep p →
  split sep (p +:+ String sep rest) = p :: split sep rest.
Proof.
  induction p as [| c p IH]; simpl.
  - intros _. by rewrite Ascii.eqb_refl.
  - intros [Hc Hp]. rewrite (proj2 (Ascii.eqb_neq c sep) Hc). by rewrite IH.
Qed.

Lemma split_single (sep : ascii) (p : string) : no_sep sep p → split sep p = [p].
Proof.
  induction p as [| c p IH]; cbn [split no_sep]; [done |].
  intros [Hc Hp]. rewrite (proj2 (Ascii.eqb_neq c sep) Hc). by rewrite IH.
Qed.

Lemma append_char (c : ascii) (s : string) : String c EmptyString +:+ s = String c s.
Proof. done. Qed.

Lemma split_join (sep : ascii) (pieces : list string) :
  pieces ≠ [] → Forall (no_sep sep) pieces →
  split sep (join (String sep EmptyString) pieces) = pieces.
Proof.
  induction pieces as [| p ps IH]; [done |]. intros _ [Hp Hps]%Forall_cons.
  destruct ps as [| q qs]; [by apply split_single |].
  rewrite join_cons, append_char.
  rewrite split_piece by done. by rewrite IH.
Qed.

(** The sort never reorders elements that have the same key. *)
Section sorted_stable.
Context {A : Type} (key : A → string).

Lemma ltb_irrefl (s : string) : String.ltb s s = false.
Proof.
  unfold String.ltb. pose proof (String.compare_antisym s s) as Hs.
  by destruct (String.compare s s).
Qed.

Lemma insort_filter (s : string) (x : A) (l : list A) :
  filter (λ y, key y = s) (insort key x l)
  = filter (λ y, key y = s) (x :: l).
Proof.
  induction l as [| y l IH]; cbn [insort]; [done |].
  destruct (String.ltb (key y) (key x)) eqn:Hlt; [| done].
  rewrite (filter_cons _ y (insort key x l)), IH.
  rewrite (filter_cons _ x (y :: l)), (filter_cons _ x l), (filter_cons _ y l).
  destruct (decide (key y = s)) as [Hy | Hy], (decide (key x = s)) as [Hx | Hx];
    try done.
  (* [x] and [y] both have key [s], yet [key y < key x] *)
  exfalso. rewrite Hx, Hy in Hlt. by rewrite ltb_irrefl in Hlt.
Qed.

Lemma sorted_filter (s : string) (l : list A) :
  filter (λ y, key y = s) (sorted key l) = filter (λ y, key y = s) l.
Proof.
  induction l as [| x l IH]; [done |].
  change (sorted key (x :: l)) with (insort key x (sorted key l)).
  by rewrite insort_filter, !filter_cons, IH.
Qed.

End sorted_stable.

(** ** More on the LRU cache *)
Section lru_recency.
Context {K V W : Type} `{EqDecision K}.
Variable maxsize : nat.
Variable user_function : K → W → V * W.

Lemma recently_used_get (k : K) (v : V) (j : nat) (es : list (K * V)) :
  recently_used k v j es → cache_get k es = Some v.
Proof.
  intros (pre & post & -> & _ & Hpre).
  induction pre as [| [k' v'] pre IH]; cbn.
  - by rewrite decide_True.
  - cbn in Hpre. apply not_elem_of_cons in Hpre as [Hne Hpre].
    rewrite decide_False by done. by apply IH.
Qed.

Lemma lru_call_hit (k : K) (v : V) (c : lru K V) (w : W) :
  cache_get k (entries c) = Some v →
  lru_call maxsize user_function k c w
  = (v, {| entries := (k, v) :: cache_remove k (entries c);
           hits := S (hits c); misses := misses c |}, w).
Proof. unfold lru_call. by intros ->. Qed.

Lemma lru_call_first (k : K) (c : lru K V) (w : W) :
  recently_used k (lru_call maxsize user_function k c w).1.1 0
    (entries (lru_call maxsize user_function k c w).1.2).
Proof.
  destruct (lru_call_result maxsize user_function k c w) as [tl Htl].
  exists [], tl. rewrite Htl. split_and!; [done | done | apply not_elem_of_nil].
Qed.

Lemma removelast_middle {A : Type} (pre : list A) (x y : A) (post : list A) :
  removelast (pre ++ x :: y :: post) = pre ++ x :: removelast (y :: post).
Proof. induction pre as [| z pre IH]; [done |]. cbn. rewrite IH. by destruct pre. Qed.

(** One more call, with any argument, moves an entry down by at most one
    place, and only the last place of a full cache is evicted. *)
Lemma lru_call_recent (k k' : K) (v : V) (j : nat) (c : lru K V) (w : W) :
  (S j < maxsize)%nat →
  recently_used k v j (entries c) →
  recently_used k v (S j) (entries (lru_call maxsize user_function k' c w).1.2).
Proof.
  intros Hj Hrec. pose proof (recently_used_get _ _ _ _ Hrec) as Hget.
  destruct Hrec as (pre & post & Hes & Hlen & Hpre).
  destruct (decide (k' = k)) as [-> | Hne].
  - rewrite (lru_call_hit _ _ _ _ Hget). cbn.
    exists [], (cache_remove k (entries c)).
    split_and!; [done | cbn; lia | apply not_elem_of_nil].
  - unfold lru_call. destruct (cache_get k' (entries c)) as [v' |] eqn:Hget'; cbn.
    + exists ((k', v') :: cache_remove k' pre), (cache_remove k' post).
      split_and!.
      * rewrite Hes. unfold cache_remove. rewrite filter_app, filter_cons_True by done.
        done.
      * cbn. unfold cache_remove.
        pose proof (length_filter (λ e : K * V, e.1 ≠ k') pre). lia.
      * cbn. apply not_elem_of_cons. split; [done |].
        intros Hin. apply Hpre. unfold cache_remove in Hin.
        eapply elem_of_sublist; [exact Hin |]. apply fmap_sublist, sublist_filter.
    + destruct (user_function k' w) as [v' w']. cbn.
      case_decide as Hfull.
      * destruct post as [| e post].
        { rewrite Hes, length_app in Hfull. cbn in Hfull. lia. }
        exists ((k', v') :: pre), (removelast (e :: post)).
        split_and!.
        -- by rewrite Hes, removelast_middle.
        -- cbn. lia.
        -- cbn. by apply not_elem_of_cons.
      * exists ((k', v') :: pre), post.
        split_and!; [by rewrite Hes | cbn; lia | cbn; by apply not_elem_of_cons].
Qed.

End lru_recency.

(** ** More on the application *)
Section more_properties.
Context {types : phonenumbers.PhoneNumberType.Constants} {lib : phonenumbers.Package}
        {tbl : pycountry.Package} {env : Environ}.

Lemma get_country_info_unfold (k : option string) (st : app_state) :
  get_country_info k st
  = ((lru_call 256 get_country_info_body k (country_cache st) (table_queries st)).1.1,
     {| country_cache :=
          (lru_call 256 get_country_info_body k (country_cache st) (table_queries st)).1.2;
        table_queries :=
          (lru_call 256 get_country_info_body k (country_cache st) (table_queries st)).2 |}).
Proof.
  unfold get_country_info.
  by destruct (lru_call 256 get_country_info_body k (country_cache st) (table_queries st))
    as [[v c] q].
Qed.

Lemma get_country_info_cached (k : option string) (v : option country_dict)
    (st : app_state) :
  cache_get k (entries (country_cache st)) = Some v →
  (get_country_info k st).1 = v
  ∧ table_queries (get_country_info k st).2 = table_queries st
  ∧ hits (country_cache (get_country_info k st).2) = S (hits (country_cache st))
  ∧ misses (country_cache (get_country_info k st).2) = misses (country_cache st).
Proof.
  intros Hget. rewrite get_country_info_unfold.
  by rewrite (lru_call_hit 256 get_country_info_body _ _ _ _ Hget).
Qed.

Lemma get_country_info_again (k : option string) (st : app_state) :
  (get_country_info k (get_country_info k st).2).1 = (get_country_info k st).1
  ∧ table_queries (get_country_info k (get_country_info k st).2).2
    = table_queries (get_country_info k st).2.
Proof.
  pose proof (lru_call_first 256 get_country_info_body k (country_cache st)
                (table_queries st)) as Hfirst.
  apply recently_used_get in Hfirst.
  destruct (get_country_info_cached k (get_country_info k st).1 (get_country_info k st).2)
    as (Hv & Hq & _); [| done].
  by rewrite get_country_info_unfold.
Qed.

(** What one resolver call does to the counters and the trace. *)
Lemma get_country_info_served (n : nat) (k : option string) (st : app_state) :
  served n st → served (S n) (get_country_info k st).2.
Proof.
  intros (Hok & Hq & Hn & Hup). split; [by apply get_country_info_ok |].
  rewrite get_country_info_unfold. cbn [country_cache table_queries].
  unfold lru_call. destruct (cache_get k (entries (country_cache st))) as [v |]; cbn.
  - split_and!; [lia | lia | done].
  - rewrite get_country_info_body_eq. cbn.
    split_and!.
    + rewrite length_app. destruct k; cbn; lia.
    + lia.
    + apply Forall_app. split; [done |].
      destruct k as [code |]; cbn; [| done].
      repeat constructor. apply upper_idemp.
Qed.

Lemma served_mono (n m : nat) (st : app_state) : (n ≤ m)%nat → served n st → served m st.
Proof. intros Hnm (? & ? & ? & ?). split_and!; [done | done | lia | done]. Qed.

(** The state after a request: untouched, or what one resolver call left. *)
Lemma lookup_state phone country tok st :
  (lookup_phone_number phone country tok st).2 = st
  ∨ ∃ n, phonenumbers.parse (coerce_phone phone country) country = phonenumbers.Parsed n
       ∧ (lookup_phone_number phone country tok st).2
         = (get_country_info (phonenumbers.region_code_for_number n) st).2.
Proof.
  unfold lookup_phone_number.
  destruct (validate_api_token (Some tok)); cbn; [| by left].
  destruct (phonenumbers.parse (coerce_phone phone country) country) as [n | e | e];
    [| by left | by left].
  right. exists n. split; [done |].
  destruct (get_country_info (phonenumbers.region_code_for_number n) st) as [ci st1].
  destruct (truthy_dict ci); cbn; [| done].
  destruct (ci ≫= (.!! "name")) as [[nm |] |]; [| | done];
    by destruct (phonenumbers.region_code_for_number n).
Qed.

Lemma serve_lookup_served (n : nat) (req : lookup_request) (st : app_state) :
  served n st → served (S n) (serve_lookup st req).
Proof.
  intros Hst. unfold serve_lookup.
  destruct (lookup_state (req_phone req) (req_country req) (req_token req) st)
    as [-> | (m & _ & ->)].
  - eapply served_mono; [| done]. lia.
  - by apply get_country_info_served.
Qed.

Lemma serve_lookups_served (reqs : list lookup_request) (n : nat) (st : app_state) :
  served n st → served (n + length reqs) (serve_lookups reqs st).
Proof.
  revert n st. induction reqs as [| req reqs IH]; intros n st Hst; cbn.
  - by rewrite Nat.add_0_r.
  - replace (n + S (length reqs))%nat with (S n + length reqs)%nat by lia.
    apply IH. by apply serve_lookup_served.
Qed.

Lemma initial_state_served : served 0 initial_state.
Proof. split_and!; cbn; [apply initial_state_ok | lia | lia | done]. Qed.

(** Everything a successful [/lookup] tells about how it came about. *)
Lemma lookup_return_full phone country tok st info st' :
  lookup_phone_number phone country tok st = (Return info, st') →
  ∃ n code d nm,
    validate_api_token (Some tok) = true
    ∧ phonenumbers.parse (coerce_phone phone country) country = phonenumbers.Parsed n
    ∧ phonenumbers.region_code_for_number n = Some code
    ∧ get_country_info (Some code) st = (Some d, st')
    ∧ d !! "name" = Some (Some nm)
    ∧ info = {|
        PhoneNumberInfo.phone_number := phonenumbers.str_number n;
        PhoneNumberInfo.country_code := code;
        PhoneNumberInfo.country_name := nm;
        PhoneNumberInfo.country_region := None;
        PhoneNumberInfo.number_type := get_number_type_name (phonenumbers.number_type n);
        PhoneNumberInfo.is_valid := phonenumbers.is_valid_number n;
        PhoneNumberInfo.is_possible := phonenumbers.is_possible_number n;
        PhoneNumberInfo.formatted_e164 := phonenumbers.format_number n phonenumbers.E164;
        PhoneNumberInfo.formatted_national :=
          phonenumbers.format_number n phonenumbers.NATIONAL;
        PhoneNumberInfo.timezone := None
      |}.
Proof.
  unfold lookup_phone_number.
  destruct (validate_api_token (Some tok)); cbn; [| done].
  destruct (phonenumbers.parse (coerce_phone phone country) country) as [n | e | e];
    [| done | done].
  destruct (get_country_info (phonenumbers.region_code_for_number n) st)
    as [ci st1] eqn:Hci.
  destruct (truthy_dict ci) eqn:Htruthy; cbn; [| done].
  destruct ci as [d |]; [| done]. cbn.
  destruct (d !! "name") as [[nm |] |] eqn:Hname; [| | done].
  - destruct (phonenumbers.region_code_for_number n) as [code |] eqn:Hregion; [| done].
    intros [= <- <-]. by exists n, code, d, nm.
  - by destruct (phonenumbers.region_code_for_number n).
Qed.

(** Once the number is parsed, the response is a function of what the
    resolver returns, and the state is the one the resolver leaves. *)
Lemma lookup_parsed_shape phone country tok n :
  validate_api_token (Some tok) = true →
  phonenumbers.parse (coerce_phone phone country) country = phonenumbers.Parsed n →
  ∃ F : option country_dict → response PhoneNumberInfo.t,
    ∀ st, lookup_phone_number phone country tok st
          = (F (get_country_info (phonenumbers.region_code_for_number n) st).1,
             (get_country_info (phonenumbers.region_code_for_number n) st).2).
Proof.
  intros Htok Hparse.
  exists (λ ci,
    if negb (truthy_dict ci) then
      HTTPException 404
        ("Country not found: " +:+ fstr (phonenumbers.region_code_for_number n))
    else
      match ci ≫= (.!! "name") with
      | None => Unhandled "KeyError"
      | Some country_name =>
          match phonenumbers.region_code_for_number n, country_name with
          | Some country_code, Some country_name =>
              Return {|
                PhoneNumberInfo.phone_number := phonenumbers.str_number n;
                PhoneNumberInfo.country_code := country_code;
                PhoneNumberInfo.country_name := country_name;
                PhoneNumberInfo.country_region := None;
                PhoneNumberInfo.number_type :=
                  get_number_type_name (phonenumbers.number_type n);
                PhoneNumberInfo.is_valid := phonenumbers.is_valid_number n;
                PhoneNumberInfo.is_possible := phonenumbers.is_possible_number n;
                PhoneNumberInfo.formatted_e164 :=
                  phonenumbers.format_number n phonenumbers.E164;
                PhoneNumberInfo.formatted_national :=
                  phonenumbers.format_number n phonenumbers.NATIONAL;
                PhoneNumberInfo.timezone := None
              |}
          | _, _ => Unhandled "ValidationError"
          end
      end).
  intros st. unfold lookup_phone_number. rewrite Htok, Hparse. cbn [negb].
  destruct (get_country_info (phonenumbers.region_code_for_number n) st) as [ci st1].
  cbn [fst snd].
  destruct (truthy_dict ci); cbn; [| done].
  destruct (ci ≫= (.!! "name")) as [[nm |] |]; [| | done];
    by destruct (phonenumbers.region_code_for_number n).
Qed.

(** With the cache invariant, no exception escapes [/lookup]. *)
Lemma lookup_status_ok phone country tok st :
  cache_ok st →
  status (lookup_phone_number phone country tok st).1 ∈ [200; 400; 401; 404].
Proof.
  intros Hok.
  destruct (validate_api_token (Some tok)) eqn:Htok;
    [| rewrite lookup_unauthorized by done; cbn; set_solver].
  destruct (phonenumbers.parse (coerce_phone phone country) country)
    as [n | e | e] eqn:Hparse.
  - destruct (country_record (phonenumbers.region_code_for_number n)) as [d |] eqn:Hrec.
    + destruct (country_record_Some _ _ Hrec) as (code & c & Hregion & Hget & ->).
      rewrite (lookup_found _ _ _ _ _ _ _ Htok Hok Hparse Hregion Hget). cbn. set_solver.
    + rewrite (lookup_not_found _ _ _ _ _ Htok Hok Hparse Hrec). cbn. set_solver.
  - rewrite (lookup_parse_error _ _ _ _ _ Htok Hparse). cbn. set_solver.
  - rewrite (lookup_other_error _ _ _ _ _ Htok Hparse). cbn. set_solver.
Qed.

(** *** Configuration *)

(** X1: [/health] reports [api_token_configured] exactly when the
    environment sets [API_TOKEN] to something other than the built-in
    placeholder.  Whenever it reports [false], the placeholder itself is
    the token every route accepts; and an [API_TOKEN] set to the empty
    string is reported as configured although no token is then accepted. *)
Theorem health_api_token_configured :
  (HealthResponse.api_token_configured health = true
     ↔ ∃ v, environ !! "API_TOKEN" = Some v ∧ v ≠ "dev-token-change-in-production")
  ∧ (HealthResponse.api_token_configured health = false →
       validate_api_token (Some "dev-token-change-in-production") = true)
  ∧ (environ !! "API_TOKEN" = Some "" →
       HealthResponse.api_token_configured health = true
       ∧ ∀ tok, validate_api_token tok = false).
Proof.
  unfold health, validate_api_token, API_TOKEN, getenv. cbn. split_and!.
  - rewrite bool_decide_eq_true.
    destruct (environ !! "API_TOKEN") as [v |]; cbn.
    + split; [by eauto | by intros (? & [= <-] & ?)].
    + split; [done | by intros (? & ? & _)].
  - rewrite bool_decide_eq_false. intros Heq%dec_stable.
    by rewrite bool_decide_eq_true, Heq.
  - intros ->. cbn. split; [done |].
    intros [[| c s] |]; cbn; [done | | done].
    by rewrite bool_decide_eq_false.
Qed.

(** X2: [CORS_ORIGINS] is never empty and none of its entries contains a
    comma; joining the entries with commas gives back the environment's
    value ([*] when [CORS_ORIGINS] is not set, which yields the single
    entry [*]); and setting the variable to a comma-joined list of
    comma-free origins yields exactly that list (nothing is trimmed). *)
Theorem CORS_ORIGINS_split :
  CORS_ORIGINS ≠ []
  ∧ Forall (no_sep ",") CORS_ORIGINS
  ∧ join "," CORS_ORIGINS = getenv "CORS_ORIGINS" "*"
  ∧ (environ !! "CORS_ORIGINS" = None → CORS_ORIGINS = ["*"])
  ∧ (∀ origins, origins ≠ [] → Forall (no_sep ",") origins →
       environ !! "CORS_ORIGINS" = Some (join "," origins) →
       CORS_ORIGINS = origins).
Proof.
  unfold CORS_ORIGINS. split_and!.
  - apply split_nonempty.
  - apply split_no_sep.
  - apply (join_split ",").
  - unfold getenv. by intros ->.
  - intros origins Hne Hfree Henv. unfold getenv. rewrite Henv. cbn [default].
    by apply (split_join ",").
Qed.

(** *** Authentication comes first *)

(** X3: each of the three protected routes answers 401 exactly when the
    token is rejected, whatever the other parameters are; a rejected
    [/lookup] leaves the cache and the query trace untouched. *)
Theorem unauthorized_iff_token_rejected phone country tok st :
  (status (lookup_phone_number phone country tok st).1 = 401
     ↔ validate_api_token (Some tok) = false)
  ∧ (status (validate_phone_number phone country tok) = 401
     ↔ validate_api_token (Some tok) = false)
  ∧ (status (get_supported_countries tok) = 401
     ↔ validate_api_token (Some tok) = false)
  ∧ (validate_api_token (Some tok) = false →
       lookup_phone_number phone country tok st
       = (HTTPException 401 "Invalid or missing API token", st)).
Proof.
  split_and!.
  - unfold lookup_phone_number.
    destruct (validate_api_token (Some tok)); cbn; [| done].
    split; [| done].
    destruct (phonenumbers.parse (coerce_phone phone country) country) as [n | e | e];
      [| done | done].
    destruct (get_country_info (phonenumbers.region_code_for_number n) st) as [ci st1].
    destruct (truthy_dict ci); cbn; [| done].
    destruct (ci ≫= (.!! "name")) as [[nm |] |]; [| | done];
      by destruct (phonenumbers.region_code_for_number n).
  - unfold validate_phone_number.
    destruct (validate_api_token (Some tok)); cbn; [| done].
    split; [| done].
    by destruct (phonenumbers.parse (coerce_phone phone country) country).
  - unfold get_supported_countries.
    destruct (validate_api_token (Some tok)); cbn; [| done].
    split; [| done]. by destruct (mapM country_info_of pycountry.countries).
  - apply lookup_unauthorized.
Qed.

(** *** The cache does not show in the answers *)

(** X4: the same [/lookup] request served twice in a row gets the same
    answer, and the second time no query reaches the country table. *)
Theorem lookup_twice phone country tok st :
  let first := lookup_phone_number phone country tok st in
  let second := lookup_phone_number phone country tok first.2 in
  second.1 = first.1 ∧ table_queries second.2 = table_queries first.2.
Proof.
  cbn zeta.
  destruct (validate_api_token (Some tok)) eqn:Htok;
    [| by rewrite !lookup_unauthorized].
  destruct (phonenumbers.parse (coerce_phone phone country) country)
    as [n | e | e] eqn:Hparse.
  - destruct (lookup_parsed_shape phone country tok n Htok Hparse) as [F HF].
    rewrite !HF. cbn [fst snd].
    destruct (get_country_info_again (phonenumbers.region_code_for_number n) st)
      as [-> ->].
    done.
  - by rewrite !(lookup_parse_error _ _ _ _ _ Htok Hparse).
  - by rewrite !(lookup_other_error _ _ _ _ _ Htok Hparse).
Qed.

(** X5: with the cache invariant, the answer of [/lookup] does not depend
    on what the cache holds: any two such states give the same response. *)
Theorem lookup_cache_transparent phone country tok st st' :
  cache_ok st → cache_ok st' →
  (lookup_phone_number phone country tok st).1
  = (lookup_phone_number phone country tok st').1.
Proof.
  intros Hok Hok'. unfold lookup_phone_number.
  destruct (validate_api_token (Some tok)); cbn; [| done].
  destruct (phonenumbers.parse (coerce_phone phone country) country) as [n | e | e];
    [| done | done].
  pose proof (get_country_info_value (phonenumbers.region_code_for_number n) st Hok)
    as Hv.
  pose proof (get_country_info_value (phonenumbers.region_code_for_number n) st' Hok')
    as Hv'.
  destruct (get_country_info (phonenumbers.region_code_for_number n) st) as [ci st1].
  destruct (get_country_info (phonenumbers.region_code_for_number n) st') as [ci' st1'].
  cbn in Hv, Hv'. subst ci ci'.
  destruct (truthy_dict _); cbn; [| done].
  destruct (_ ≫= (.!! "name")) as [[nm |] |]; [| | done];
    by destruct (phonenumbers.region_code_for_number n).
Qed.

(** *** [/lookup] and [/validate] on the same request *)

(** X6: the two number routes agree.  When [/lookup] returns a record,
    [/validate] on the same request returns the same verdicts, the same
    region and no error; when [/validate] reports an error, [/lookup]
    answers 400; and when [/validate] reports no region, [/lookup] does
    not return a record. *)
Theorem lookup_validate_agree phone country tok st :
  (∀ info st', lookup_phone_number phone country tok st = (Return info, st') →
     validate_phone_number phone country tok
     = Return {|
         ValidationResult.phone := coerce_phone phone country;
         ValidationResult.is_valid := PhoneNumberInfo.is_valid info;
         ValidationResult.is_possible := PhoneNumberInfo.is_possible info;
         ValidationResult.country_code := Some (PhoneNumberInfo.country_code info);
         ValidationResult.error := None
       |})
  ∧ (∀ r, validate_phone_number phone country tok = Return r →
       is_Some (ValidationResult.error r) →
       (lookup_phone_number phone country tok st).1
       = HTTPException 400 "Invalid phone number format")
  ∧ (∀ r, validate_phone_number phone country tok = Return r →
       ValidationResult.country_code r = None →
       status (lookup_phone_number phone country tok st).1 ≠ 200).
Proof.
  split_and!.
  - intros info st' (n & code & d & nm & Htok & Hparse & Hregion & _ & _ & ->)
      %lookup_return_full.
    rewrite (validate_parsed _ _ _ _ Htok Hparse). cbn. by rewrite Hregion.
  - intros r Hr Herr.
    assert (Htok : validate_api_token (Some tok) = true).
    { destruct (validate_api_token (Some tok)) eqn:Htok; [done |].
      by rewrite validate_unauthorized in Hr. }
    apply validate_return_inv in Hr as [_ [(n & _ & _ & _ & _ & Hnone) | (e & He & _)]].
    + rewrite Hnone in Herr. by destruct Herr.
    + by rewrite (lookup_parse_error _ _ _ _ _ Htok He).
  - intros r Hr Hnone Hstatus.
    destruct (lookup_phone_number phone country tok st) as [[info | code detail | exc] st']
      eqn:Hl; cbn in Hstatus; [| | done].
    + apply lookup_return_full in Hl
        as (n & code & d & nm & Htok & Hparse & Hregion & _).
      rewrite (validate_parsed _ _ _ _ Htok Hparse) in Hr. injection Hr as <-.
      cbn in Hnone. congruence.
    + subst code. revert Hl. unfold lookup_phone_number.
      destruct (validate_api_token (Some tok)); cbn; [| done].
      destruct (phonenumbers.parse (coerce_phone phone country) country) as [n | e | e];
        [| done | done].
      destruct (get_country_info (phonenumbers.region_code_for_number n) st) as [ci st1].
      destruct (truthy_dict ci); cbn; [| done].
      destruct (ci ≫= (.!! "name")) as [[nm |] |]; [| | done];
        by destruct (phonenumbers.region_code_for_number n).
Qed.

(** X14: the [phone] that [/validate] echoes is a fixed point: validating
    the echoed string again (same hint) gives the same result; and without
    a hint the echoed string always starts with a plus sign. *)
Theorem validate_echo_fixpoint phone country tok r :
  validate_phone_number phone country tok = Return r →
  validate_phone_number (ValidationResult.phone r) country tok = Return r
  ∧ (truthy country = false → startswith (ValidationResult.phone r) "+" = true).
Proof.
  intros Hr. pose proof Hr as [Hphone _]%validate_return_inv. rewrite Hphone. split.
  - rewrite <- Hr. unfold validate_phone_number. by rewrite coerce_phone_idemp.
  - intros Hhint. unfold coerce_phone. rewrite Hhint.
    destruct (startswith phone "+") eqn:Hplus; cbn; [done | apply startswith_plus].
Qed.

(** *** What a lookup record can hold *)

(** X7: the classifier only ever produces one of the eleven fixed labels,
    whatever integer it is given and whatever the library's constants are;
    so in every record [/lookup] returns [number_type] is one of them, and
    [country_region] and [timezone] are never set. *)
Theorem number_type_labels :
  let labels := [ "MOBILE"; "FIXED_LINE"; "FIXED_LINE_OR_MOBILE"; "TOLL_FREE";
                  "PREMIUM_RATE"; "SHARED_COST"; "VOIP"; "PERSONAL_NUMBER";
                  "PAGER"; "UAN"; "UNKNOWN" ] in
  (∀ x : Z, get_number_type_name x ∈ labels)
  ∧ (∀ phone country tok st info st',
       lookup_phone_number phone country tok st = (Return info, st') →
       PhoneNumberInfo.number_type info ∈ labels
       ∧ PhoneNumberInfo.country_region info = None
       ∧ PhoneNumberInfo.timezone info = None).
Proof.
  intros labels.
  assert (Hlabels : ∀ x : Z, get_number_type_name x ∈ labels).
  { intros x. unfold get_number_type_name, dict_get, _NUMBER_TYPE_MAPPING.
    rewrite dict_display_list_to_map.
    match goal with
    | |- context [list_to_map ?l !! x] =>
        destruct (list_to_map l !! x) as [v |] eqn:Hv;
        [apply elem_of_list_to_map_2 in Hv | cbn; set_solver]
    end.
    apply elem_of_reverse in Hv. cbn [default].
    apply (list_elem_of_fmap_2 snd) in Hv. exact Hv. }
  split; [done |].
  intros phone country tok st info st'
    (n & code & d & nm & _ & _ & _ & _ & _ & ->)%lookup_return_full.
  cbn. split_and!; [apply Hlabels | done | done].
Qed.

(** X8: what the resolver returns, for a state with the cache invariant:
    nothing exactly when the code is absent, unknown to the table, or the
    table raises; otherwise a dict with exactly the four keys, holding the
    found country's attributes (so reading ["name"] never fails). *)
Theorem get_country_info_result k st :
  cache_ok st →
  ((get_country_info k st).1 = None
     ↔ k = None
       ∨ ∃ code, k = Some code
           ∧ (pycountry.countries_get (upper code) = pycountry.Returns None
              ∨ pycountry.countries_get (upper code) = pycountry.Raises))
  ∧ (∀ d, (get_country_info k st).1 = Some d →
       ∃ code c,
         k = Some code
         ∧ pycountry.countries_get (upper code) = pycountry.Returns (Some c)
         ∧ dom d = {[ "name"; "alpha_2"; "alpha_3"; "numeric" ]}
         ∧ d !! "name" = Some (Some (pycountry.name c))
         ∧ d !! "alpha_2" = Some (Some (pycountry.alpha_2 c))
         ∧ d !! "alpha_3" = Some (pycountry.alpha_3 c)
         ∧ d !! "numeric" = Some (pycountry.numeric c)).
Proof.
  intros Hok. rewrite (get_country_info_value k st Hok). split.
  - unfold country_record, get_country_info_body.
    destruct k as [code |]; cbn; [| by split; [left |]].
    destruct (pycountry.countries_get (upper code)) as [[c |] |] eqn:Hget; cbn.
    + split; [done |]. intros [? | (code' & [= <-] & [? | ?])]; congruence.
    + split; [| done]. intros _. right. exists code. by eauto.
    + split; [| done]. intros _. right. exists code. by eauto.
  - intros d (code & c & -> & Hget & ->)%country_record_Some.
    exists code, c. unfold make_country_dict, dict_display. cbn [foldl fst snd].
    split_and!; [done | done | | | | |].
    + rewrite !dom_insert_L, dom_empty_L. set_solver.
    + do 3 (rewrite lookup_insert_ne by done). apply lookup_insert_eq.
    + do 2 (rewrite lookup_insert_ne by done). apply lookup_insert_eq.
    + rewrite lookup_insert_ne by done. apply lookup_insert_eq.
    + apply lookup_insert_eq.
Qed.

(** *** The cache over many requests *)

Lemma resolve_all_recent (code : option string) (v : option country_dict)
    (codes : list (option string)) (j : nat) (st : app_state) :
  (j + length codes < 256)%nat →
  recently_used code v j (entries (country_cache st)) →
  recently_used code v (j + length codes)
    (entries (country_cache (resolve_all codes st))).
Proof.
  revert j st. induction codes as [| k codes IH]; intros j st Hlen Hrec; cbn in *.
  - by rewrite Nat.add_0_r.
  - replace (j + S (length codes))%nat with (S j + length codes)%nat by lia.
    apply IH; [lia |]. rewrite get_country_info_unfold. cbn [country_cache].
    apply lru_call_recent; [lia | done].
Qed.

(** X9: a code that was just resolved stays cached while at most 255 other
    resolver calls (with any arguments) are made: the next call for it
    returns the same record from the cache, as a hit, without a table
    query. *)
Theorem recently_resolved_stays_cached code codes st :
  (length codes < 256)%nat →
  let st1 := (get_country_info code st).2 in
  let st2 := resolve_all codes st1 in
  (get_country_info code st2).1 = (get_country_info code st).1
  ∧ table_queries (get_country_info code st2).2 = table_queries st2
  ∧ hits (country_cache (get_country_info code st2).2) = S (hits (country_cache st2))
  ∧ misses (country_cache (get_country_info code st2).2) = misses (country_cache st2).
Proof.
  intros Hlen st1 st2.
  pose proof (lru_call_first 256 get_country_info_body code (country_cache st)
                (table_queries st)) as Hfirst.
  assert (Hrec : recently_used code (get_country_info code st).1 0
                   (entries (country_cache st1))).
  { subst st1. by rewrite get_country_info_unfold. }
  apply (resolve_all_recent _ _ codes) in Hrec; [| cbn; lia].
  apply recently_used_get in Hrec.
  by apply get_country_info_cached.
Qed.

(** X10: after any sequence of [/lookup] requests, served one after the
    other from the empty cache, the cache invariant holds (at most 256
    entries, one per argument, each equal to what the table gives), the
    resolver was reached at most once per request, every table query was a
    counted cache miss, and every code sent to the table was uppercased. *)
Theorem serve_lookups_invariant (reqs : list lookup_request) :
  let st := serve_lookups reqs initial_state in
  cache_ok st
  ∧ (length (entries (country_cache st)) ≤ 256)%nat
  ∧ (hits (country_cache st) + misses (country_cache st) ≤ length reqs)%nat
  ∧ (length (table_queries st) ≤ misses (country_cache st))%nat
  ∧ Forall (λ q, upper q = q) (table_queries st).
Proof.
  intros st.
  destruct (serve_lookups_served reqs 0 initial_state initial_state_served)
    as (Hok & Hq & Hn & Hup).
  split_and!; [done | apply Hok | done | done | done].
Qed.

(** X11: in a process that started with the empty cache and has served
    any sequence of [/lookup] requests, the next [/lookup] never lets an
    exception escape: it answers 200, 400, 401 or 404. *)
Theorem lookup_never_unhandled (reqs : list lookup_request) phone country tok :
  let r := (lookup_phone_number phone country tok
              (serve_lookups reqs initial_state)).1 in
  status r ∈ [200; 400; 401; 404] ∧ ∀ exc, r ≠ Unhandled exc.
Proof.
  intros r.
  assert (Hstatus : status r ∈ [200; 400; 401; 404]).
  { apply lookup_status_ok.
    apply (serve_lookups_served reqs 0 initial_state initial_state_served). }
  split; [done |]. intros exc Hr. rewrite Hr in Hstatus. cbn in Hstatus.
  rewrite !elem_of_cons, elem_of_nil in Hstatus.
  by destruct Hstatus as [? | [? | [? | [? | ?]]]].
Qed.

(** *** The country listing, again *)

(** X12: the listing is stable: records of the table that have the same
    name appear in the response in the order the table has them. *)
Theorem listing_stable tok r :
  get_supported_countries tok = Return r →
  ∃ projected,
    mapM country_info_of pycountry.countries = Some projected
    ∧ ∀ s : string,
        filter (λ i, CountryInfo.name i = s) (CountriesResponse.countries r)
        = filter (λ i, CountryInfo.name i = s) projected.
Proof.
  unfold get_supported_countries.
  destruct (validate_api_token (Some tok)); cbn; [| done].
  destruct (mapM country_info_of pycountry.countries) as [l |]; [| done].
  intros [= <-]. exists l. split; [done |]. intros s. cbn. apply sorted_filter.
Qed.

(** X13: the listing is all or nothing.  It returns a body exactly when
    the token is accepted and every record of the table has both
    [alpha_3] and [numeric]; with an accepted token, one record without
    either makes the whole request fail with [AttributeError] (no record
    is skipped). *)
Theorem listing_all_or_nothing tok :
  ((∃ r, get_supported_countries tok = Return r)
     ↔ validate_api_token (Some tok) = true
       ∧ Forall (λ c, is_Some (pycountry.alpha_3 c) ∧ is_Some (pycountry.numeric c))
                pycountry.countries)
  ∧ (get_supported_countries tok = Unhandled "AttributeError"
     ↔ validate_api_token (Some tok) = true
       ∧ Exists (λ c, pycountry.alpha_3 c = None ∨ pycountry.numeric c = None)
                pycountry.countries).
Proof.
  assert (Hone : ∀ c, country_info_of c = None
                      ↔ pycountry.alpha_3 c = None ∨ pycountry.numeric c = None).
  { intros c. unfold country_info_of.
    destruct (pycountry.alpha_3 c), (pycountry.numeric c); intuition congruence. }
  unfold get_supported_countries.
  destruct (validate_api_token (Some tok)); cbn;
    [| split; split;
       [by intros [? ?] | by intros [? _] | done | by intros [? _]]].
  destruct (mapM country_info_of pycountry.countries) as [l |] eqn:Hmap.
  - split.
    + split; [intros _; split; [done |] | by eauto].
      assert (Hsome : is_Some (mapM country_info_of pycountry.countries)) by by eauto.
      apply mapM_is_Some_1 in Hsome.
      eapply Forall_impl; [exact Hsome |]. intros c [i Hi]. unfold country_info_of in Hi.
      destruct (pycountry.alpha_3 c), (pycountry.numeric c); by eauto.
    + split; [done |]. intros [_ Hex]. exfalso.
      assert (Hnone : mapM country_info_of pycountry.countries = None).
      { apply mapM_None. eapply Exists_impl; [exact Hex |]. intros c. apply Hone. }
      congruence.
  - apply mapM_None in Hmap. split.
    + split; [by intros [? ?] |]. intros [_ Hall]. exfalso.
      apply Exists_exists in Hmap as (c & Hin & Hc).
      rewrite Forall_forall in Hall. destruct (Hall c Hin) as [[? Ha] [? Hn]].
      apply Hone in Hc as [? | ?]; congruence.
    + split; [intros _; split; [done |] | done].
      eapply Exists_impl; [exact Hmap |]. intros c. apply Hone.
Qed.

End more_properties.

(** ** The service on the small instance *)

Import Mini.

Lemma mini_token : validate_api_token (Some "s3cret") = true.
Proof. by vm_compute. Qed.

Lemma mini_all_digits (s : string) : all_digits (digits_of s) = true.
Proof.
  induction s as [| c s IH]; [done |]. cbn [digits_of].
  destruct (is_digit c) eqn:Hc; [| done]. cbn [all_digits]. by rewrite Hc, IH.
Qed.

Lemma mini_e164_shaped (n : string) :
  e164_shaped (phonenumbers.format_number (Package := numbering_plan) n phonenumbers.E164)
  = true.
Proof. cbn. apply mini_all_digits. Qed.

Lemma mini_valid_possible (n : string) :
  phonenumbers.is_valid_number (Package := numbering_plan) n = true →
  phonenumbers.is_possible_number (Package := numbering_plan) n = true.
Proof.
  cbn. unfold is_valid_number. by intros [[? _]%andb_prop _]%andb_prop.
Qed.

Lemma mini_str_error (e : error_type) : str_error e ≠ "".
Proof. by destruct e. Qed.

Lemma mini_table_complete :
  Forall (λ c, is_Some (pycountry.alpha_3 c) ∧ is_Some (pycountry.numeric c))
         (pycountry.countries (Package := country_table)).
Proof. repeat constructor; by eexists. Qed.

Lemma mini_table_distinct :
  NoDup (pycountry.alpha_2 <$> pycountry.countries (Package := country_table)).
Proof. apply (bool_decide_unpack _). by vm_compute. Qed.

Lemma mini_types_distinct : NoDup [1; 0; 2; 3; 4; 5; 6; 7; 8; 9; 99].
Proof. apply (bool_decide_unpack _). by vm_compute. Qed.

(** C5 on the constants of [phonenumbers.PhoneNumberType]. *)
Lemma get_number_type_name_total_mini :
  get_number_type_name 1 = "MOBILE"
  ∧ get_number_type_name 99 = "UNKNOWN"
  ∧ get_number_type_name 10 = "UNKNOWN".
Proof.
  pose proof (get_number_type_name_total (types := constants) mini_types_distinct)
    as (Hmobile & _ & _ & _ & _ & _ & _ & _ & _ & _ & Hunknown & Hother).
  split; [exact Hmobile | split; [exact Hunknown |]].
  apply Hother. apply (bool_decide_unpack _). by vm_compute.
Defined.

(** C8 on a national number without a hint. *)
Lemma plus_prefix_coercion_mini :
  coerce_phone "4155552671" None = "+4155552671"
  ∧ coerce_phone "4155552671" (Some "US") = "4155552671".
Proof.
  split.
  - apply (proj1 (plus_prefix_coercion "4155552671" None "s3cret" initial_state
                    mini_token)).
    by vm_compute.
  - apply (proj1 (proj2 (plus_prefix_coercion "4155552671" (Some "US") "s3cret"
                           initial_state mini_token))).
    right. by vm_compute.
Defined.

(** C4 on the small numbering plan. *)
Lemma valid_implies_possible_mini :
  (∀ phone country tok st info st',
     lookup_phone_number phone country tok st = (Return info, st') →
     PhoneNumberInfo.is_valid info = true → PhoneNumberInfo.is_possible info = true)
  ∧ (∀ phone country tok r,
       validate_phone_number phone country tok = Return r →
       ValidationResult.is_valid r = true → ValidationResult.is_possible r = true).
Proof. exact (valid_implies_possible mini_valid_possible). Defined.

(** C9 on ["+14155552671"]. *)
Lemma lookup_canonical_forms_mini :
  ∃ info,
    (lookup_phone_number "+14155552671" None "s3cret" initial_state).1 = Return info
    ∧ PhoneNumberInfo.phone_number info = "PhoneNumber(14155552671)"
    ∧ PhoneNumberInfo.formatted_e164 info = "+14155552671"
    ∧ e164_shaped (PhoneNumberInfo.formatted_e164 info) = true.
Proof.
  destruct (lookup_phone_number "+14155552671" None "s3cret" initial_state)
    as [resp st'] eqn:Hl.
  assert (Hresp : ∃ info, resp = Return info) by (vm_compute in Hl; injection Hl as <- _; eauto).
  destruct Hresp as [info ->]. exists info.
  destruct (lookup_canonical_forms (lib := numbering_plan) _ _ _ _ _ _
              mini_e164_shaped Hl)
    as (n & Hn & Hpn & He164 & Hshape).
  vm_compute in Hn. injection Hn as <-.
  split_and!; [done | exact Hpn | exact He164 | exact Hshape].
Defined.

(** C10 on ["+10000000000"], a number the small plan gives no region. *)
Lemma lookup_without_region_mini :
  (get_country_info None initial_state).1 = None
  ∧ (lookup_phone_number "+10000000000" None "s3cret" initial_state).1
    = HTTPException 404 "Country not found: None"
  ∧ table_queries (lookup_phone_number "+10000000000" None "s3cret" initial_state).2
    = table_queries initial_state.
Proof.
  apply (lookup_without_region (lib := numbering_plan) "+10000000000" None "s3cret"
           initial_state "10000000000" mini_token initial_state_ok); by vm_compute.
Defined.

(** C2 on a number that parses and resolves, from the empty cache. *)
Lemma lookup_phone_number_outcomes_mini :
  ¬ (∃ detail, (lookup_phone_number "+14155552671" None "s3cret" initial_state).1
               = HTTPException 400 detail).
Proof.
  intros H400.
  apply (proj1 (lookup_phone_number_outcomes "+14155552671" None "s3cret" initial_state
                  mini_token initial_state_ok)) in H400.
  apply H400. exists "14155552671". by vm_compute.
Defined.

(** C1 on ["not-a-number"]. *)
Lemma validate_phone_number_outcomes_mini :
  validate_phone_number "not-a-number" None "s3cret"
  = Return {|
      ValidationResult.phone := "+not-a-number";
      ValidationResult.is_valid := false;
      ValidationResult.is_possible := false;
      ValidationResult.country_code := None;
      ValidationResult.error :=
        Some "(1) The string supplied did not seem to be a phone number."
    |}.
Proof.
  apply (proj1 (validate_phone_number_outcomes (lib := numbering_plan) "not-a-number"
                  None "s3cret" mini_token mini_str_error) NOT_A_NUMBER).
  by vm_compute.
Defined.

(** C1 fails as stated: ["+10000000000"] parses, is reported without
    [error], and has no [country_code], because the library infers no
    region for it. *)
Lemma validate_parsed_without_region :
  ¬ (∀ phone country n r,
       phonenumbers.parse (coerce_phone phone country) country = phonenumbers.Parsed n →
       validate_phone_number phone country "s3cret" = Return r →
       ValidationResult.error r = None ∧ is_Some (ValidationResult.country_code r)).
Proof.
  intros Hclaim.
  destruct (Hclaim "+10000000000" None ("10000000000" : string)
              {| ValidationResult.phone := "+10000000000";
                 ValidationResult.is_valid := false;
                 ValidationResult.is_possible := true;
                 ValidationResult.country_code := None;
                 ValidationResult.error := None |}) as [_ [code Hcode]];
    [by vm_compute | by vm_compute | done].
Qed.

(** C3 on ["us"] followed by ["US"], from the empty cache. *)
Lemma get_country_info_memoized_mini :
  (get_country_info (Some "US") (get_country_info (Some "us") initial_state).2).1
  = (get_country_info (Some "us") initial_state).1.
Proof.
  apply (proj1 (proj2 (get_country_info_memoized initial_state "us" "US"
                         initial_state_ok))).
  by vm_compute.
Defined.

Example us_then_US_trace :
  let st := (get_country_info (Some "US") (get_country_info (Some "us") initial_state).2).2 in
  table_queries st = ["US"; "US"]
  ∧ hits (country_cache st) = 0%nat ∧ misses (country_cache st) = 2%nat.
Proof. by vm_compute. Qed.

Example us_then_us_trace :
  let st := (get_country_info (Some "us") (get_country_info (Some "us") initial_state).2).2 in
  table_queries st = ["US"]
  ∧ hits (country_cache st) = 1%nat ∧ misses (country_cache st) = 1%nat.
Proof. by vm_compute. Qed.

(** C3 fails as stated: ["us"] and ["US"] normalize to the same code, yet
    the second call queries the table again. *)
Lemma case_variants_are_cached_apart :
  ¬ (∀ a b : string, upper a = upper b →
       let c1 := get_country_info (Some a) initial_state in
       let c2 := get_country_info (Some b) c1.2 in
       c2.1 = c1.1 ∧ table_queries c2.2 = table_queries c1.2).
Proof.
  intros Hclaim. destruct (Hclaim "us" "US" eq_refl) as [_ Hq].
  vm_compute in Hq. discriminate Hq.
Qed.

(** C7 on the three-line table. *)
Lemma get_supported_countries_spec_mini :
  ∃ r projected,
    get_supported_countries "s3cret" = Return r
    ∧ Forall2 (λ c i, CountryInfo.name i = pycountry.name c
                      ∧ CountryInfo.alpha_2 i = pycountry.alpha_2 c
                      ∧ Some (CountryInfo.alpha_3 i) = pycountry.alpha_3 c
                      ∧ Some (CountryInfo.numeric i) = pycountry.numeric c)
              table projected
    ∧ CountriesResponse.countries r ≡ₚ projected
    ∧ StronglySorted (key_le CountryInfo.name) (CountriesResponse.countries r)
    ∧ CountriesResponse.total r = length (CountriesResponse.countries r)
    ∧ CountriesResponse.total r = length table
    ∧ NoDup (CountryInfo.alpha_2 <$> CountriesResponse.countries r).
Proof.
  exact (get_supported_countries_spec "s3cret" mini_token mini_table_complete
           mini_table_distinct).
Defined.

(** ** The further properties on the small instance *)

(** X5 on the empty cache and the cache one request later. *)
Lemma lookup_cache_transparent_mini :
  (lookup_phone_number "+14155552671" None "s3cret" initial_state).1
  = (lookup_phone_number "+14155552671" None "s3cret"
       (lookup_phone_number "+442071838750" None "s3cret" initial_state).2).1.
Proof.
  apply lookup_cache_transparent; [apply initial_state_ok |].
  apply lookup_phone_number_ok, initial_state_ok.
Defined.

(** X8 on a code the small table does not have. *)
Lemma get_country_info_result_mini :
  (get_country_info (Some "zz") initial_state).1 = None.
Proof.
  apply (proj1 (get_country_info_result (Some "zz") initial_state initial_state_ok)).
  right. exists "zz". split; [done |]. left. by vm_compute.
Defined.

(** X9 on ["US"], followed by three other resolver calls. *)
Lemma recently_resolved_stays_cached_mini :
  let st2 := resolve_all [Some "GB"; Some "FR"; None]
               (get_country_info (Some "US") initial_state).2 in
  (get_country_info (Some "US") st2).1 = (get_country_info (Some "US") initial_state).1
  ∧ table_queries (get_country_info (Some "US") st2).2 = table_queries st2.
Proof.
  destruct (recently_resolved_stays_cached (Some "US") [Some "GB"; Some "FR"; None]
              initial_state) as (Hv & Hq & _); [cbn; lia |].
  by split.
Defined.

(** X12 on the three-line table. *)
Lemma listing_stable_mini :
  ∃ r projected,
    get_supported_countries "s3cret" = Return r
    ∧ mapM country_info_of table = Some projected
    ∧ ∀ s : string,
        filter (λ i, CountryInfo.name i = s) (CountriesResponse.countries r)
        = filter (λ i, CountryInfo.name i = s) projected.
Proof.
  destruct (get_supported_countries "s3cret") as [r | code detail | exc] eqn:Hr;
    [| by vm_compute in Hr..].
  destruct (listing_stable "s3cret" r Hr) as (projected & Hp & Hs).
  by exists r, projected.
Defined.

(** X14 on a national number without a hint. *)
Lemma validate_echo_fixpoint_mini :
  ∃ r, validate_phone_number "4155552671" None "s3cret" = Return r
    ∧ validate_phone_number (ValidationResult.phone r) None "s3cret" = Return r
    ∧ startswith (ValidationResult.phone r) "+" = true.
Proof.
  destruct (validate_phone_number "4155552671" None "s3cret")
    as [r | code detail | exc] eqn:Hr; [| by vm_compute in Hr..].
  destruct (validate_echo_fixpoint "4155552671" None "s3cret" r Hr) as [Hfix Hplus].
  exists r. split_and!; [done | exact Hfix | by apply Hplus].
Defined.
